(** * Spotify_Downloader: the multi-source acquisition engine

    A shallow embedding of the download ledger ([download_tracker.py]), the
    YouTube downloader's path builder and completeness check
    ([downloader.py]), the Jamendo and Internet Archive clients
    ([jamendo_client.py], [internetarchive_client.py]) and the fallback
    orchestrator ([multi_source_downloader.py]), with the properties the
    specification states about them.

    Conventions.
    - A Python [str] is a [string]; [lower()] is modelled on the ASCII
      letters.
    - A Python [float] is a binary64 [float] of the kernel, so arithmetic and
      comparisons round as CPython's do.
    - A Python [dict] used as a map is a [gmap]; a dict with a fixed set of
      keys is a record, a key that may be absent is an [option] field.
    - A call that may raise returns an [outcome]; code that reads or changes
      the world is a function on an explicit state, [M S A]. *)

From Stdlib Require Import ZArith Ascii String List Bool Lia.
From Stdlib Require Import Floats.PrimFloat.
From stdpp Require Import base option list gmap strings pretty.

Set Default Proof Using "Type".
Set Warnings "-inexact-float".
Local Open Scope string_scope.
Local Open Scope list_scope.
Local Open Scope Z_scope.

(** ** Outcomes and stateful computations *)

(** The result of a Python call: a value, or an exception that is an instance
    of [Exception] (the class every [except Exception] clause of the program
    names). *)
Inductive outcome (A : Type) : Type :=
  | Returns (a : A)
  | Raises.
Arguments Returns {A} a.
Arguments Raises {A}.

(** A computation over a state [S]: the state survives an exception. *)
Definition M (S A : Type) : Type := S → outcome A * S.

Definition ret {S A} (a : A) : M S A := fun s => (Returns a, s).

Definition bind {S A B} (m : M S A) (k : A → M S B) : M S B :=
  fun s => match m s with
           | (Returns a, s') => k a s'
           | (Raises, s') => (Raises, s')
           end.

Definition raise {S A} : M S A := fun s => (Raises, s).

(** [try: body / except Exception: handler]. *)
Definition try_except {S A} (body handler : M S A) : M S A :=
  fun s => match body s with
           | (Returns a, s') => (Returns a, s')
           | (Raises, s') => handler s'
           end.

Definition get {S} : M S S := fun s => (Returns s, s).
Definition modify {S} (f : S → S) : M S unit := fun s => (Returns tt, f s).

Notation "'let*' x ':=' m 'in' k" := (bind m (fun x => k))
  (at level 10, x name, m at level 100, k at level 200).
Notation "'run' m 'in' k" := (bind m (fun _ => k))
  (at level 10, m at level 100, k at level 200).

(** ** Python strings *)

Module Py.

Definition lower_ascii (c : ascii) : ascii :=
  let n := nat_of_ascii c in
  if (Nat.leb 65 n && Nat.leb n 90)%bool then ascii_of_nat (n + 32) else c.

(** [s.lower()] *)
Fixpoint lower (s : string) : string :=
  match s with
  | EmptyString => EmptyString
  | String c r => String (lower_ascii c) (lower r)
  end.

(** [hay.startswith(needle)] *)
Fixpoint startswith (needle hay : string) : bool :=
  match needle, hay with
  | EmptyString, _ => true
  | String a n', String b h' => Ascii.eqb a b && startswith n' h'
  | String _ _, EmptyString => false
  end.

(** [needle in hay] for strings. *)
Fixpoint str_in (needle hay : string) : bool :=
  startswith needle hay ||
  match hay with
  | EmptyString => false
  | String _ h' => str_in needle h'
  end.

(** [c in s] for a single character. *)
Fixpoint char_in (c : ascii) (s : string) : bool :=
  match s with
  | EmptyString => false
  | String d r => Ascii.eqb c d || char_in c r
  end.

(** [s.replace(old, new)] for single characters. *)
Fixpoint replace (old new : ascii) (s : string) : string :=
  match s with
  | EmptyString => EmptyString
  | String c r => String (if Ascii.eqb c old then new else c) (replace old new r)
  end.

(** [s.lstrip(chars)] *)
Fixpoint lstrip (chars s : string) : string :=
  match s with
  | EmptyString => EmptyString
  | String c r => if char_in c chars then lstrip chars r else s
  end.

(** [s.rstrip(chars)] *)
Fixpoint rstrip (chars s : string) : string :=
  match s with
  | EmptyString => EmptyString
  | String c r =>
      match rstrip chars r with
      | EmptyString => if char_in c chars then EmptyString else String c EmptyString
      | r' => String c r'
      end
  end.

(** [s.strip(chars)] *)
Definition strip (chars s : string) : string := rstrip chars (lstrip chars s).

(** [bool(s)] for a string. *)
Definition truthy (s : string) : bool :=
  match s with EmptyString => false | String _ _ => true end.

(** [bool(r)] for an [Optional[str]]. *)
Definition truthy_opt (r : option string) : bool :=
  match r with Some s => truthy s | None => false end.

(** [x in l] for a list of strings. *)
Definition list_in (x : string) (l : list string) : bool :=
  existsb (String.eqb x) l.

(** [int -> float], exact for magnitudes up to 2^53. *)
Fixpoint pos_to_float (p : positive) : float :=
  match p with
  | xH => 1
  | xO q => 2 * pos_to_float q
  | xI q => 2 * pos_to_float q + 1
  end%float.

Definition float_of_int (z : Z) : float :=
  match z with
  | Z0 => 0
  | Zpos p => pos_to_float p
  | Zneg p => - pos_to_float p
  end%float.

(** [a / b] on floats: [ZeroDivisionError] on a zero divisor. *)
Definition float_div (a b : float) : outcome float :=
  if (b =? 0)%float then Raises else Returns (a / b)%float.

(** [a / b] on two [int]s (true division; both within 2^53). *)
Definition int_truediv (a b : Z) : outcome float :=
  float_div (float_of_int a) (float_of_int b).

End Py.

(** ** Track metadata

    The [track] dict that the Spotify client hands to every component.
    ['artist'], ['name'] and ['album'] are read with [track[...]] everywhere;
    ['duration_ms'] and ['track_number'] are probed
    (['duration_ms' in spotify_track], [track.get('track_number', 1)]). *)
Record Track := {
  artist : string;
  name : string;
  album : string;
  track_number : option Z;
  duration_ms : option Z;
}.

(** The file system as the program observes it: the regular files and their
    [st_size]. *)
Abbreviation FileSystem := (gmap string Z).

(** [Path(p).exists()] *)
Definition path_exists (fs : FileSystem) (p : string) : bool :=
  bool_decide (is_Some (fs !! p)).

(** [Path(p).stat().st_size]: raises [FileNotFoundError] on a missing file. *)
Definition stat_size (fs : FileSystem) (p : string) : outcome Z :=
  match fs !! p with Some n => Returns n | None => Raises end.

(** [p / seg] on [pathlib] paths, as text. *)
Definition path_join (p seg : string) : string := p +:+ "/" +:+ seg.

(** ** hashlib.md5

    MD5 (RFC 1321) on the bytes of a string, with 32-bit words as [Z] and
    their wrap-around written out. *)

Module Md5.

Definition mask32 : Z := 0xffffffff.

Definition add32 (a b : Z) : Z := Z.land (a + b) mask32.

Definition not32 (a : Z) : Z := Z.lxor a mask32.

Definition rotl32 (x : Z) (c : Z) : Z :=
  Z.land (Z.lor (Z.shiftl x c) (Z.shiftr x (32 - c))) mask32.

Definition shifts : list Z :=
  [7; 12; 17; 22; 7; 12; 17; 22; 7; 12; 17; 22; 7; 12; 17; 22;
   5; 9; 14; 20; 5; 9; 14; 20; 5; 9; 14; 20; 5; 9; 14; 20;
   4; 11; 16; 23; 4; 11; 16; 23; 4; 11; 16; 23; 4; 11; 16; 23;
   6; 10; 15; 21; 6; 10; 15; 21; 6; 10; 15; 21; 6; 10; 15; 21].

Definition sines : list Z :=
  [0xd76aa478; 0xe8c7b756; 0x242070db; 0xc1bdceee;
   0xf57c0faf; 0x4787c62a; 0xa8304613; 0xfd469501;
   0x698098d8; 0x8b44f7af; 0xffff5bb1; 0x895cd7be;
   0x6b901122; 0xfd987193; 0xa679438e; 0x49b40821;
   0xf61e2562; 0xc040b340; 0x265e5a51; 0xe9b6c7aa;
   0xd62f105d; 0x02441453; 0xd8a1e681; 0xe7d3fbc8;
   0x21e1cde6; 0xc33707d6; 0xf4d50d87; 0x455a14ed;
   0xa9e3e905; 0xfcefa3f8; 0x676f02d9; 0x8d2a4c8a;
   0xfffa3942; 0x8771f681; 0x6d9d6122; 0xfde5380c;
   0xa4beea44; 0x4bdecfa9; 0xf6bb4b60; 0xbebfbc70;
   0x289b7ec6; 0xeaa127fa; 0xd4ef3085; 0x04881d05;
   0xd9d4d039; 0xe6db99e5; 0x1fa27cf8; 0xc4ac5665;
   0xf4292244; 0x432aff97; 0xab9423a7; 0xfc93a039;
   0x655b59c3; 0x8f0ccc92; 0xffeff47d; 0x85845dd1;
   0x6fa87e4f; 0xfe2ce6e0; 0xa3014314; 0x4e0811a1;
   0xf7537e82; 0xbd3af235; 0x2ad7d2bb; 0xeb86d391].

(** The bytes of a string ([s.encode()]). *)
Fixpoint bytes_of (s : string) : list Z :=
  match s with
  | EmptyString => []
  | String c r => Z.of_nat (nat_of_ascii c) :: bytes_of r
  end.

(** [n] as [k] little-endian bytes. *)
Fixpoint le_bytes (k : nat) (n : Z) : list Z :=
  match k with
  | O => []
  | S k' => Z.land n 0xff :: le_bytes k' (Z.shiftr n 8)
  end.

(** The message, a one bit, zeros up to 56 modulo 64, and the bit length. *)
Definition pad (msg : list Z) : list Z :=
  let n := Z.of_nat (length msg) in
  msg ++ [0x80] ++ repeat 0 (Z.to_nat ((55 - n) mod 64)) ++ le_bytes 8 (8 * n).

(** Little-endian 32-bit words of a block. *)
Fixpoint words_of (block : list Z) : list Z :=
  match block with
  | b0 :: b1 :: b2 :: b3 :: rest =>
      (b0 + Z.shiftl b1 8 + Z.shiftl b2 16 + Z.shiftl b3 24) :: words_of rest
  | _ => []
  end.

Record digest := { da : Z; db : Z; dc : Z; dd : Z }.

Definition init : digest :=
  {| da := 0x67452301; db := 0xefcdab89; dc := 0x98badcfe; dd := 0x10325476 |}.

Definition round (m : list Z) (st : digest) (i : nat) : digest :=
  let '(Build_digest a b c d) := st in
  let iz := Z.of_nat i in
  let '(f, g) :=
    if iz <? 16 then (Z.lor (Z.land b c) (Z.land (not32 b) d), iz)
    else if iz <? 32 then (Z.lor (Z.land d b) (Z.land (not32 d) c), (5 * iz + 1) mod 16)
    else if iz <? 48 then (Z.lxor (Z.lxor b c) d, (3 * iz + 5) mod 16)
    else (Z.lxor c (Z.lor b (not32 d)), (7 * iz) mod 16) in
  let f := add32 (add32 (add32 f a) (nth i sines 0)) (nth (Z.to_nat g) m 0) in
  {| da := d; db := add32 b (rotl32 f (nth i shifts 0)); dc := b; dd := c |}.

Definition compress (st : digest) (block : list Z) : digest :=
  let st' := fold_left (round (words_of block)) (seq 0 64) st in
  {| da := add32 (da st) (da st'); db := add32 (db st) (db st');
     dc := add32 (dc st) (dc st'); dd := add32 (dd st) (dd st') |}.

Fixpoint blocks (n : nat) (st : digest) (data : list Z) : digest :=
  match n with
  | O => st
  | S n' => blocks n' (compress st (firstn 64 data)) (skipn 64 data)
  end.

Definition hex_digit (n : Z) : ascii :=
  if n <? 10 then ascii_of_nat (Z.to_nat (48 + n)) else ascii_of_nat (Z.to_nat (87 + n)).

Fixpoint hex_of (bytes : list Z) : string :=
  match bytes with
  | [] => EmptyString
  | b :: rest => String (hex_digit (Z.shiftr b 4)) (String (hex_digit (Z.land b 0xf)) (hex_of rest))
  end.

(** [hashlib.md5(s.encode()).hexdigest()] *)
Definition hexdigest (s : string) : string :=
  let data := pad (bytes_of s) in
  let st := blocks (length data / 64) init data in
  hex_of (le_bytes 4 (da st) ++ le_bytes 4 (db st) ++ le_bytes 4 (dc st) ++ le_bytes 4 (dd st)).

End Md5.

(** ** download_tracker.py *)

Module DownloadTracker.

(** A value of [completed_tracks]. ['size'] is read with [.get]. *)
Record TrackedInfo := {
  ti_artist : string;
  ti_name : string;
  ti_album : string;
  ti_file : string;
  ti_size : option Z;
  ti_format : string;
}.

(** The tracker object: the in-memory ledger, and (ghost) the ledger at each
    call of [_save_tracker] so far, oldest first: one element per persistence
    write that was started. *)
Record t := {
  tracker_file : string;
  completed_tracks : gmap string TrackedInfo;
  saved : list (gmap string TrackedInfo);
}.

(** [_save_tracker]: the whole ledger is written; an I/O error is logged
    and swallowed, so the call never raises. *)
Definition _save_tracker (self : t) : t :=
  {| tracker_file := tracker_file self;
     completed_tracks := completed_tracks self;
     saved := saved self ++ [completed_tracks self] |}.

Definition _get_track_id (track : Track) : string :=
  Md5.hexdigest (artist track +:+ "|" +:+ name track +:+ "|" +:+ album track).

Definition is_downloaded (self : t) (fs : FileSystem)
    (track : Track) (file_path : string) : bool :=
  let track_id := _get_track_id track in
  if negb (path_exists fs file_path) then false
  else
    match completed_tracks self !! track_id with
    | Some tracked_info =>
        match fs !! file_path with
        | Some file_size =>
            bool_decide (ti_size tracked_info = Some file_size)
        | None => false
        end
    | None => false
    end.

(** [file_path.name]: the text after the last separator. *)
Fixpoint name_of (acc s : string) : string :=
  match s with
  | EmptyString => acc
  | String c r => if Ascii.eqb c "/" then name_of r r else name_of acc r
  end.

(** The text after the last dot of [s], if [s] has a dot. *)
Fixpoint after_last_dot (s : string) : option string :=
  match s with
  | EmptyString => None
  | String c r =>
      match after_last_dot r with
      | Some ext => Some ext
      | None => if Ascii.eqb c "." then Some r else None
      end
  end.

(** [file_path.suffix[1:]]: the extension without its dot; a name that only
    starts with a dot, or ends in one, has none. *)
Definition format_of (file_path : string) : string :=
  match name_of file_path file_path with
  | EmptyString => ""
  | String _ r => default "" (after_last_dot r)
  end.

(** [mark_downloaded]: [stat()] is evaluated while the new value is built,
    so a missing file raises before the ledger is touched. *)
Definition mark_downloaded (self : t) (fs : FileSystem)
    (track : Track) (file_path : string) : outcome t :=
  let track_id := _get_track_id track in
  match stat_size fs file_path with
  | Raises => Raises
  | Returns size =>
      let info := {| ti_artist := artist track;
                     ti_name := name track;
                     ti_album := album track;
                     ti_file := file_path;
                     ti_size := Some size;
                     ti_format := format_of file_path |} in
      Returns (_save_tracker
                 {| tracker_file := tracker_file self;
                    completed_tracks := <[track_id := info]> (completed_tracks self);
                    saved := saved self |})
  end.

Definition remove_track (self : t) (track : Track) : t :=
  let track_id := _get_track_id track in
  if bool_decide (is_Some (completed_tracks self !! track_id)) then
    _save_tracker
      {| tracker_file := tracker_file self;
         completed_tracks := delete track_id (completed_tracks self);
         saved := saved self |}
  else self.

(** A later call on the tracker, with the disk as it is at that call. *)
Inductive Call :=
  | CallIsDownloaded (fs : FileSystem) (track : Track) (file_path : string)
  | CallMarkDownloaded (fs : FileSystem) (track : Track) (file_path : string)
  | CallRemoveTrack (track : Track).

(** The tracker after a call; a call that raises leaves it as it was. *)
Definition after_call (self : t) (c : Call) : t :=
  match c with
  | CallIsDownloaded _ _ _ => self
  | CallMarkDownloaded fs track file_path =>
      match mark_downloaded self fs track file_path with
      | Returns self' => self'
      | Raises => self
      end
  | CallRemoveTrack track => remove_track self track
  end.

(** The call writes or deletes the entry [track_id]. *)
Definition touches (track_id : string) (c : Call) : Prop :=
  match c with
  | CallIsDownloaded _ _ _ => False
  | CallMarkDownloaded _ track _ => _get_track_id track = track_id
  | CallRemoveTrack track => _get_track_id track = track_id
  end.

(** The tracker file as [_load_tracker] finds it: absent, unreadable (the
    [open] or the [json.load] raises), or a document. *)
Inductive TrackerFile :=
  | NoFile
  | BadFile
  | Document (d : gmap string TrackedInfo).

Definition _load_tracker (file : TrackerFile) : gmap string TrackedInfo :=
  match file with
  | Document d => d
  | BadFile => ∅
  | NoFile => ∅
  end.

(** [DownloadTracker(output_dir)] *)
Definition __init__ (output_dir : string) (file : TrackerFile) : t :=
  {| tracker_file := path_join output_dir ".download_tracker.json";
     completed_tracks := _load_tracker file;
     saved := [] |}.

(** How one write of [_save_tracker] ends. Every failure is swallowed by its
    [except Exception]. *)
Inductive WriteFate :=
  | Completed      (* the document is in the file *)
  | Torn           (* [open] emptied the file and [json.dump] broke off *)
  | Refused.       (* [mkdir] or [open] raised: the file is as it was *)

(** The tracker file after one write of [doc]. *)
Definition write_tracker (file : TrackerFile) (fate : WriteFate)
    (doc : gmap string TrackedInfo) : TrackerFile :=
  match fate with
  | Completed => Document doc
  | Torn => BadFile
  | Refused => file
  end.

(** The tracker file after the writes of [docs], oldest first, the i-th of
    which ended as [fates] says; a write that [fates] is too short for went
    through. *)
Fixpoint file_after (file : TrackerFile) (fates : list WriteFate)
    (docs : list (gmap string TrackedInfo)) : TrackerFile :=
  match docs with
  | [] => file
  | doc :: docs' =>
      file_after (write_tracker file (hd Completed fates) doc) (tl fates) docs'
  end.

(** [_count_formats]: [track_info.get('format', 'unknown')] is the entry's
    format, which every entry of this ledger has. *)
Definition _count_formats (self : t) : gmap string Z :=
  map_fold
    (fun _ track_info formats =>
       let fmt := ti_format track_info in
       <[fmt := default 0 (formats !! fmt) + 1]> formats)
    ∅ (completed_tracks self).

(** The entries of the ledger whose format is [fmt]. *)
Definition with_format (fmt : string) (m : gmap string TrackedInfo)
    : gmap string TrackedInfo :=
  filter (fun kv => ti_format kv.2 = fmt) m.

Record Stats := {
  total_downloaded : Z;
  formats : gmap string Z;
}.

Definition get_stats (self : t) : Stats :=
  {| total_downloaded := Z.of_nat (size (completed_tracks self));
     formats := _count_formats self |}.

End DownloadTracker.

(** ** pathlib paths

    A [Path] is kept as the operands of its construction,
    [Path(root) / seg1 / seg2 ...]; [str(path)] joins them. A segment that
    holds a separator therefore shows up as what it is: text that the file
    system will read as more than one component. The root is taken as
    [pathlib] prints it (['downloads'] for ['./downloads']); what [pathlib]
    does to an empty, dotted or absolute segment is not modelled here;
    [Pathlib] below parses paths for the two HTTP clients. *)
Definition Path := list string.

Definition path_div (p : Path) (seg : string) : Path := (p ++ [seg])%list.

Definition path_str (p : Path) : string :=
  match p with
  | [] => "."
  | root :: segs => fold_left path_join segs root
  end.

(** The operands after the root. *)
Definition path_segments (p : Path) : list string := tail p.

(** Exceptions in code that has no state of its own. *)
Definition obind {A B} (o : outcome A) (k : A → outcome B) : outcome B :=
  match o with Returns a => k a | Raises => Raises end.

Notation "'let?' x ':=' o 'in' k" := (obind o (fun x => k))
  (at level 10, x name, o at level 100, k at level 200).

(** [d[key]] on a key that may be absent: [KeyError]. *)
Definition getitem {A} (o : option A) : outcome A :=
  match o with Some a => Returns a | None => Raises end.

(** ** downloader.py *)

Module Downloader.

(** A piece of [filename_format]: literal text, or one of the replacement
    fields [{artist}], [{title}], [{album}], [{track_number}] and
    [{track_number:02d}]. These are the formats that are modelled; the
    default is one of them. *)
Inductive FormatField :=
  | Lit (s : string)
  | FArtist
  | FTitle
  | FAlbum
  | FTrackNumber
  | FTrackNumber02.

(** The parts of [config] that the downloader reads. *)
Record t := {
  output_dir : string;
  audio_format : string;
  skip_existing : bool;
  organize_by_artist : bool;
  filename_format : list FormatField;
}.

(** ['{track_number:02d} - {artist} - {title}'] *)
Definition default_filename_format : list FormatField :=
  [FTrackNumber02; Lit " - "; FArtist; Lit " - "; FTitle].

(** [invalid_chars]: less-than, greater-than, colon, double quote, slash,
    backslash, bar, question mark, star. *)
Definition invalid_chars : string :=
  "<>:" +:+ String "034"%char "/\|?*".

(** [for char in invalid_chars: filename = filename.replace(char, '_')] *)
Fixpoint replace_each (chars filename : string) : string :=
  match chars with
  | EmptyString => filename
  | String char rest => replace_each rest (Py.replace char "_"%char filename)
  end.

Definition _sanitize_filename (filename : string) : string :=
  let filename := replace_each invalid_chars filename in
  Py.strip ". " filename.

(** [format(n, '02d')] *)
Definition format_02d (n : Z) : string :=
  let s := pretty n in
  if (String.length s <? 2)%nat then "0" +:+ s else s.

Definition format_field (artist title album : string) (track_number : Z)
    (f : FormatField) : string :=
  match f with
  | Lit s => s
  | FArtist => artist
  | FTitle => title
  | FAlbum => album
  | FTrackNumber => pretty track_number
  | FTrackNumber02 => format_02d track_number
  end.

(** [fmt.format(artist=..., title=..., album=..., track_number=...)] *)
Definition format_filename (fmt : list FormatField)
    (artist title album : string) (track_number : Z) : string :=
  fold_right (fun f acc => format_field artist title album track_number f +:+ acc)
             "" fmt.

Definition _get_output_path (self : t) (track : Track) : Path :=
  let artist := _sanitize_filename (artist track) in
  let album := _sanitize_filename (album track) in
  let title := _sanitize_filename (name track) in
  let track_number := default 1 (track_number track) in
  let base_path :=
    if organize_by_artist self
    then path_div (path_div [output_dir self] artist) album
    else [output_dir self] in
  let filename := format_filename (filename_format self) artist title album track_number in
  path_div base_path filename.

(** What [mutagen.File(file_path)] gives for the file under test. *)
Inductive MutagenResult :=
  | MutagenError                          (* the import or the call raises *)
  | MutagenNone                           (* format not identified *)
  | MutagenAudio (length : option float). (* [info.length], when it exists *)

Definition has_positive_length (length : option float) : option float :=
  match length with
  | Some l => if (0 <? l)%float then Some l else None
  | None => None
  end.

(** The body of the [try] of [_is_file_complete]. *)
Definition _is_file_complete_body (mutagen : MutagenResult) (fs : FileSystem)
    (file_path : string) (track : Track) : outcome bool :=
  match mutagen with
  | MutagenError => Raises
  | MutagenNone => Returns false
  | MutagenAudio length =>
      match has_positive_length length with
      | Some file_duration =>
          let? ms := getitem (duration_ms track) in
          let? expected_duration := Py.int_truediv ms 1000 in
          let? duration_ratio := Py.float_div file_duration expected_duration in
          Returns ((0.85 <=? duration_ratio)%float && (duration_ratio <=? 1.15)%float)
      | None =>
          let? file_size := stat_size fs file_path in
          let? ms := getitem (duration_ms track) in
          let? seconds := Py.int_truediv ms 1000 in
          let? minutes := Py.float_div seconds 60 in
          let min_expected_size := (minutes * 500000)%float in
          Returns (min_expected_size * 0.7 <=? Py.float_of_int file_size)%float
      end
  end.

Definition _is_file_complete (mutagen : MutagenResult) (fs : FileSystem)
    (file_path : string) (track : Track) : outcome bool :=
  match _is_file_complete_body mutagen fs file_path track with
  | Returns b => Returns b
  | Raises =>
      let? file_size := stat_size fs file_path in
      Returns (500000 <? file_size)%Z
  end.

(** [codec_map] *)
Definition codec_map : gmap string string :=
  {[ "mp3" := "mp3"; "flac" := "flac"; "wav" := "wav";
     "m4a" := "m4a"; "opus" := "opus"; "vorbis" := "vorbis" ]}.

Definition _get_codec (self : t) : string :=
  default "mp3" (codec_map !! Py.lower (audio_format self)).

(** [self] with another [audio_format]. *)
Definition with_audio_format (self : t) (fmt : string) : t :=
  {| output_dir := output_dir self; audio_format := fmt;
     skip_existing := skip_existing self;
     organize_by_artist := organize_by_artist self;
     filename_format := filename_format self |}.

(** No character of [invalid_chars] occurs in [s]. *)
Definition free_of_invalid (s : string) : Prop :=
  ∀ c, Py.char_in c invalid_chars = true → Py.char_in c s = false.

(** The literal text of the format brings in no invalid character. *)
Definition clean_field (f : FormatField) : Prop :=
  match f with
  | Lit s => free_of_invalid s
  | _ => True
  end.

(** *** [pathlib] on the text of a path *)

(** The text before the last [sep] of [s], if [s] has one. *)
Fixpoint before_last (sep : ascii) (s : string) : option string :=
  match s with
  | EmptyString => None
  | String c r =>
      match before_last sep r with
      | Some pre => Some (String c pre)
      | None => if Ascii.eqb c sep then Some EmptyString else None
      end
  end.

(** [str(path.parent)] *)
Definition parent_of (path : string) : string :=
  match before_last "/" path with
  | Some EmptyString => "/"
  | Some dir => dir
  | None => "."
  end.

(** [path.stem]: the name without its suffix; a name that only starts with a
    dot, or ends in one, has no suffix. *)
Definition stem_of (name : string) : string :=
  match name with
  | EmptyString => EmptyString
  | String c r =>
      match DownloadTracker.after_last_dot r, before_last "." r with
      | Some (String _ _), Some st => String c st
      | _, _ => name
      end
  end.

(** [str(path.with_suffix(suffix))]: [ValueError] on a suffix that holds a
    separator, does not start with a dot or is a lone dot, and on a path
    with an empty name. *)
Definition with_suffix (path suffix : string) : outcome string :=
  if Py.char_in "/" suffix then Raises
  else if (Py.truthy suffix && negb (Py.startswith "." suffix)) || String.eqb suffix "."
  then Raises
  else
    match DownloadTracker.name_of path path with
    | EmptyString => Raises
    | name =>
        let dir := match before_last "/" path with
                   | Some d => d +:+ "/"
                   | None => EmptyString
                   end in
        Returns (dir +:+ stem_of name +:+ suffix)
    end.

Section WithYoutubeDL.

(** [mutagen.File] on each path, and [yt_dlp.YoutubeDL(ydl_opts).download]
    as an action on the disk, given the URL, [outtmpl] and
    [preferredcodec]. *)
Variable mutagen : string → MutagenResult.
Variable ydl_download : string → string → string → M FileSystem unit.

(** The disk, and (ghost) the URLs handed to yt-dlp so far. *)
Record Env := {
  fs : FileSystem;
  ydl_calls : list string;
}.

Definition on_fs {A} (m : M FileSystem A) : M Env A :=
  fun e =>
    let '(r, fs') := m (fs e) in
    (r, {| fs := fs'; ydl_calls := ydl_calls e |}).

(** [path.unlink()] *)
Definition unlink (p : string) : M FileSystem unit :=
  fun fs => match fs !! p with
            | Some _ => (Returns tt, delete p fs)
            | None => (Raises, fs)
            end.

(** [path.mkdir(parents=True, exist_ok=True)] *)
Definition mkdir (p : string) : M FileSystem unit :=
  fun fs => if path_exists fs p then (Raises, fs) else (Returns tt, fs).

(** [with yt_dlp.YoutubeDL(ydl_opts) as ydl: ydl.download([youtube_url])] *)
Definition run_ydl (youtube_url outtmpl codec : string) : M Env unit :=
  fun e =>
    let '(r, fs') := ydl_download youtube_url outtmpl codec (fs e) in
    (r, {| fs := fs'; ydl_calls := ydl_calls e ++ [youtube_url] |}).

(** Everything in [download] after the check of an existing file. *)
Definition fetch (self : t) (youtube_url output_path : string) : M Env (option string) :=
  run on_fs (mkdir (parent_of output_path)) in
  let* outtmpl := (fun e => (with_suffix output_path ".%(ext)s", e)) in
  try_except
    (run run_ydl youtube_url outtmpl (_get_codec self) in
     let* final_path :=
       (fun e => (with_suffix output_path ("." +:+ _get_codec self), e)) in
     let* e := get in
     if path_exists (fs e) final_path then ret (Some final_path) else ret None)
    (ret None).

Definition download (self : t) (youtube_url : string) (track : Track)
    : M Env (option string) :=
  let output_path := path_str (_get_output_path self track) in
  let* e := get in
  if skip_existing self && path_exists (fs e) output_path then
    let* complete :=
      (fun e => (_is_file_complete (mutagen output_path) (fs e) output_path track, e)) in
    if (complete : bool) then ret (Some output_path)
    else
      run on_fs (unlink output_path) in
      fetch self youtube_url output_path
  else fetch self youtube_url output_path.

End WithYoutubeDL.

End Downloader.

(** ** pathlib, as the two HTTP clients use it

    A path is parsed into its root and its components: empty and ['.']
    components are dropped, and an absolute operand of [/] replaces what
    stands to its left. ['..'] is a component like any other. *)

Module Pathlib.

Record PurePath := {
  root : string;          (* [''], ['/'] or ['//'] *)
  parts : list string;    (* the components after the root *)
}.

(** [s.split('/')] *)
Fixpoint split (s : string) : list string :=
  match s with
  | EmptyString => [EmptyString]
  | String c rest =>
      if Ascii.eqb c "/" then EmptyString :: split rest
      else match split rest with
           | x :: xs => String c x :: xs
           | [] => [String c EmptyString]
           end
  end.

(** [posixpath.splitroot(p)]: the root and the rest; exactly two leading
    slashes are a root of their own. *)
Definition splitroot (p : string) : string * string :=
  match p with
  | String a r1 =>
      if Ascii.eqb a "/" then
        match r1 with
        | String b r2 =>
            if Ascii.eqb b "/" then
              if Py.startswith "/" r2 then ("/", r1) else ("//", r2)
            else ("/", r1)
        | EmptyString => ("/", r1)
        end
      else ("", p)
  | EmptyString => ("", p)
  end.

(** [x and x != '.'] *)
Definition is_part (x : string) : bool :=
  Py.truthy x && negb (String.eqb x ".").

(** [Path(p)] *)
Definition parse (p : string) : PurePath :=
  let '(root, rel) := splitroot p in
  {| root := root; parts := List.filter is_part (split rel) |}.

(** [p / key] *)
Definition joinpath (p : PurePath) (key : string) : PurePath :=
  if Py.startswith "/" key then parse key
  else {| root := root p; parts := parts p ++ parts (parse key) |}.

(** [str(p)] *)
Definition str (p : PurePath) : string :=
  match parts p with
  | [] => if Py.truthy (root p) then root p else "."
  | x :: xs => root p +:+ fold_left path_join xs x
  end.

(** [p.parent] *)
Definition parent (p : PurePath) : PurePath :=
  {| root := root p; parts := removelast (parts p) |}.

(** [p] and its ancestors below the root, the outermost first. *)
Definition lineage (p : PurePath) : list PurePath :=
  map (fun n => {| root := root p; parts := firstn n (parts p) |})
      (seq 1 (length (parts p))).

(** The path that the operands [Path(root) / seg1 / seg2 ...] make. *)
Definition of_operands (p : Path) : PurePath :=
  match p with
  | [] => parse ""
  | r :: segs => fold_left joinpath segs (parse r)
  end.

End Pathlib.

(** ** The network and the disk, as the two HTTP clients see them *)

Module Http.

(** A search hit of Jamendo ([results[i]]); every key is read with [.get]. *)
Record JamendoTrack := {
  jt_id : option string;
  jt_artist_name : option string;
  jt_name : option string;
  jt_duration : option float;
}.

(** The ['format'] of an Internet Archive document: a list, or a bare string
    when the item has one format. *)
Inductive IAFormat :=
  | FormatList (l : list string)
  | FormatStr (s : string).

(** A search hit of the Internet Archive ([docs[i]]). *)
Record IAItem := {
  ia_identifier : option string;
  ia_title : option string;
  ia_creator : option string;
  ia_format : option IAFormat;
}.

(** An entry of the ['files'] of an item's metadata. *)
Record IAFile := {
  f_format : option string;
  f_name : option string;
}.

(** The documents [response.json()] can give. *)
Inductive Json :=
  | JamendoSearch (results : option (list JamendoTrack))
  | IASearch (docs : option (list IAItem))
  | IAMetadata (files : option (list IAFile))
  | JsonOther.

Record Response := {
  status_ok : bool;                 (* [raise_for_status()] passes *)
  content_type : option string;     (* the [content-type] header *)
  content_length : outcome Z;       (* [int(headers.get('content-length', 0))] *)
  json : outcome Json;              (* [response.json()] *)
  chunks : list (list Byte.byte);   (* what [iter_content] yields *)
  stream_fails : bool;              (* the stream breaks after the last chunk *)
}.

(** The answer to one [session.get]. *)
Inductive Reply :=
  | ConnectionError
  | Answer (r : Response).

(** The world of a client: the regular files of the disk, its directories
    (by the text of their paths; the root and the working directory are
    always there), and the answers the network is going to give, one per
    request, in order. *)
Record Env := {
  fs : FileSystem;
  dirs : gset string;
  replies : list Reply;
}.

Definition set_fs (f : FileSystem → FileSystem) (e : Env) : Env :=
  {| fs := f (fs e); dirs := dirs e; replies := replies e |}.

(** [session.get(url, ...)]: a network failure raises; so does a request
    that the script has no answer for. *)
Definition session_get : M Env Response :=
  fun e =>
    match replies e with
    | [] => (Raises, e)
    | ConnectionError :: rest =>
        (Raises, {| fs := fs e; dirs := dirs e; replies := rest |})
    | Answer r :: rest =>
        (Returns r, {| fs := fs e; dirs := dirs e; replies := rest |})
    end.

Definition raise_for_status (r : Response) : M Env unit :=
  if status_ok r then ret tt else raise.

(** Lift a pure call that may raise. *)
Definition lift {S A} (o : outcome A) : M S A := fun s => (o, s).

(** [p.is_dir()] *)
Definition is_dir (e : Env) (p : Pathlib.PurePath) : bool :=
  match Pathlib.parts p with
  | [] => true
  | _ :: _ => bool_decide (Pathlib.str p ∈ dirs e)
  end.

(** The names that [p.mkdir(parents=True, exist_ok=True)] has to find or
    make as directories: [p] and its ancestors. *)
Definition chain (p : Pathlib.PurePath) : list string :=
  map Pathlib.str (Pathlib.lineage p).

(** One of them is a regular file. *)
Definition blocked (e : Env) (p : Pathlib.PurePath) : bool :=
  existsb (path_exists (fs e)) (chain p).

(** The world with [p] and its ancestors as directories. *)
Definition made (p : Pathlib.PurePath) (e : Env) : Env :=
  {| fs := fs e; dirs := dirs e ∪ list_to_set (chain p); replies := replies e |}.

(** [p.mkdir(parents=True, exist_ok=True)]: [FileExistsError] when [p] is a
    regular file, [NotADirectoryError] when an ancestor is one, and nothing
    is made then; otherwise every directory that is missing is made. *)
Definition mkdir (p : Pathlib.PurePath) : M Env unit :=
  fun e => if blocked e p then (Raises, e) else (Returns tt, made p e).

(** [open(p, 'wb')] can create or truncate the file: [p] is no directory and
    its parent is one. *)
Definition writable (e : Env) (p : Pathlib.PurePath) : bool :=
  negb (is_dir e p) && is_dir e (Pathlib.parent p).

(** [open(p, 'wb')]: the file is there and empty afterwards;
    [IsADirectoryError], [FileNotFoundError] or [NotADirectoryError]
    otherwise. *)
Definition open_wb (p : Pathlib.PurePath) : M Env unit :=
  fun e =>
    if writable e p
    then (Returns tt, set_fs (fun fs => <[Pathlib.str p := 0]> fs) e)
    else (Raises, e).

(** [len(chunk)] *)
Definition len (chunk : list Byte.byte) : Z := Z.of_nat (length chunk).

(** The loop over [iter_content] inside [with open(output_file, 'wb')]:
    empty chunks are skipped, every other chunk grows the file. *)
Fixpoint write_chunks (output_file : string) (cs : list (list Byte.byte)) : M Env unit :=
  match cs with
  | [] => ret tt
  | chunk :: rest =>
      match chunk with
      | [] => write_chunks output_file rest
      | _ :: _ =>
          run modify (set_fs (fun fs =>
                <[output_file := default 0 (fs !! output_file) + len chunk]> fs)) in
          write_chunks output_file rest
      end
  end.

(** The bytes that the write loop puts into the file. *)
Definition written (cs : list (list Byte.byte)) : Z :=
  fold_right (fun chunk acc => len chunk + acc) 0 cs.

(** [with open(output_file, 'wb') as f: for chunk in ...: f.write(chunk)]:
    the file is created empty, then filled; a broken stream raises out of
    the block and leaves what was written. *)
Definition save_stream (output_file : Pathlib.PurePath) (r : Response) : M Env unit :=
  run open_wb output_file in
  run write_chunks (Pathlib.str output_file) (chunks r) in
  if stream_fails r then raise else ret tt.

(** [output_file.unlink()] *)
Definition unlink (p : Pathlib.PurePath) : M Env unit :=
  fun e => if path_exists (fs e) (Pathlib.str p)
           then (Returns tt, set_fs (fun fs => delete (Pathlib.str p) fs) e)
           else (Raises, e).

(** [output_file.stat().st_size] *)
Definition stat (p : Pathlib.PurePath) : M Env Z :=
  fun e => (stat_size (fs e) (Pathlib.str p), e).

End Http.

(** The selection loop that both [_find_best_match] methods run: the running
    best changes only on a strictly greater score. *)
Fixpoint best_match_loop {C} (score : C → Z) (results : list C)
    (best_score : Z) (best_match : option C) : Z * option C :=
  match results with
  | [] => (best_score, best_match)
  | result :: rest =>
      let s := score result in
      if best_score <? s
      then best_match_loop score rest s (Some result)
      else best_match_loop score rest best_score best_match
  end.

(** [if best_score >= 60: return best_match / return None] *)
Definition accept_best {C} (best : Z * option C) : option C :=
  if 60 <=? fst best then snd best else None.

(** ** jamendo_client.py *)

Module JamendoClient.
Import Http.

Definition artist_score (artist result_artist : string) : Z :=
  if String.eqb artist result_artist then 50
  else if Py.str_in artist result_artist || Py.str_in result_artist artist then 30
  else 0.

Definition title_score (title result_title : string) : Z :=
  if String.eqb title result_title then 50
  else if Py.str_in title result_title || Py.str_in result_title title then 30
  else 0.

(** [abs(spotify_duration - jamendo_duration)] *)
Definition duration_diff (ms : Z) (result : JamendoTrack) : float :=
  let spotify_duration := (Py.float_of_int ms / 1000)%float in
  let jamendo_duration := default 0%float (jt_duration result) in
  abs (spotify_duration - jamendo_duration)%float.

Definition duration_score (spotify_track : Track) (result : JamendoTrack) : Z :=
  match duration_ms spotify_track with
  | Some ms => if (duration_diff ms result <=? 10)%float then 20 else 0
  | None => 0
  end.

(** The score one pass of the loop gives to [result]. *)
Definition score (spotify_track : Track) (result : JamendoTrack) : Z :=
  let artist := Py.lower (artist spotify_track) in
  let title := Py.lower (name spotify_track) in
  let result_artist := Py.lower (default "" (jt_artist_name result)) in
  let result_title := Py.lower (default "" (jt_name result)) in
  artist_score artist result_artist
  + title_score title result_title
  + duration_score spotify_track result.

Definition _find_best_match (spotify_track : Track)
    (jamendo_results : list JamendoTrack) : option JamendoTrack :=
  accept_best (best_match_loop (score spotify_track) jamendo_results 0 None).

(** [bool(best_match)]: a dict with no key at all is falsy. *)
Definition truthy_dict (r : JamendoTrack) : bool :=
  bool_decide (is_Some (jt_id r)) || bool_decide (is_Some (jt_artist_name r))
  || bool_decide (is_Some (jt_name r)) || bool_decide (is_Some (jt_duration r)).

(** [if best_match: return best_match / return None] *)
Definition if_truthy (best_match : option JamendoTrack) : option JamendoTrack :=
  match best_match with
  | Some r => if truthy_dict r then Some r else None
  | None => None
  end.

(** [data.get('results', [])] *)
Definition results_of (data : Json) : list JamendoTrack :=
  match data with
  | JamendoSearch (Some rs) => rs
  | _ => []
  end.

Definition search_track (track : Track) : M Env (option JamendoTrack) :=
  try_except
    (let* response := session_get in
     run raise_for_status response in
     let* data := lift (json response) in
     match results_of data with
     | [] => ret None
     | results => ret (if_truthy (_find_best_match track results))
     end)
    (ret None).

(** [Path(output_dir) / artist / f"{artist} - {title}.flac"] *)
Definition output_file_of (output_dir : string) (track : Track) : Path :=
  let artist := artist track in
  let title := name track in
  let output_path := path_div [output_dir] artist in
  path_div output_path (artist +:+ " - " +:+ title +:+ ".flac").

Definition download_track (jamendo_track : JamendoTrack) (output_dir : string)
    (track : Track) : M Env (option string) :=
  try_except
    (if negb (Py.truthy_opt (jt_id jamendo_track)) then ret None
     else
       let output_path := Pathlib.of_operands (path_div [output_dir] (artist track)) in
       run mkdir output_path in
       let output_file := Pathlib.of_operands (output_file_of output_dir track) in
       let* response := session_get in
       run raise_for_status response in
       if negb (Py.str_in "audio" (default "" (content_type response))) then ret None
       else
         let* total_size := lift (content_length response) in
         run save_stream output_file response in
         let* size := stat output_file in
         if size <? 100000 then
           run unlink output_file in
           ret None
         else ret (Some (Pathlib.str output_file)))
    (ret None).

End JamendoClient.

(** ** internetarchive_client.py *)

Module InternetArchiveClient.
Import Http.

(** [isinstance(formats, list) and 'Flac' in formats], with
    [formats = item.get('format', [])]. *)
Definition has_flac (item : IAItem) : bool :=
  match ia_format item with
  | Some (FormatList l) => Py.list_in "Flac" l
  | Some (FormatStr _) => false
  | None => false
  end.

(** The score one pass of the loop gives to [item]. *)
Definition score (spotify_track : Track) (item : IAItem) : Z :=
  let artist := Py.lower (artist spotify_track) in
  let title := Py.lower (name spotify_track) in
  let item_title := Py.lower (default "" (ia_title item)) in
  let item_creator := Py.lower (default "" (ia_creator item)) in
  (if Py.str_in artist item_creator || Py.str_in artist item_title then 50 else 0)
  + (if Py.str_in title item_title then 50 else 0)
  + (if has_flac item then 20 else 0).

Definition _find_best_match (spotify_track : Track)
    (ia_results : list IAItem) : option IAItem :=
  accept_best (best_match_loop (score spotify_track) ia_results 0 None).

(** [bool(best_match)]: a dict with no key at all is falsy. *)
Definition truthy_dict (item : IAItem) : bool :=
  bool_decide (is_Some (ia_identifier item)) || bool_decide (is_Some (ia_title item))
  || bool_decide (is_Some (ia_creator item)) || bool_decide (is_Some (ia_format item)).

(** [if best_match: return best_match / return None] *)
Definition if_truthy (best_match : option IAItem) : option IAItem :=
  match best_match with
  | Some item => if truthy_dict item then Some item else None
  | None => None
  end.

(** [data.get('response', {}).get('docs', [])] *)
Definition docs_of (data : Json) : list IAItem :=
  match data with
  | IASearch (Some ds) => ds
  | _ => []
  end.

Definition search_track (track : Track) : M Env (option IAItem) :=
  try_except
    (let* response := session_get in
     run raise_for_status response in
     let* data := lift (json response) in
     match docs_of data with
     | [] => ret None
     | docs => ret (if_truthy (_find_best_match track docs))
     end)
    (ret None).

(** [metadata.get('files', [])] *)
Definition files_of (metadata : Json) : list IAFile :=
  match metadata with
  | IAMetadata (Some fs) => fs
  | _ => []
  end.

(** [s.endswith(suffix)] *)
Fixpoint endswith (suffix s : string) : bool :=
  String.eqb suffix s ||
  match s with
  | EmptyString => false
  | String _ r => endswith suffix r
  end.

Definition is_flac_file (file : IAFile) : bool :=
  bool_decide (f_format file = Some "Flac")
  || endswith ".flac" (default "" (f_name file)).

(** [Path(output_dir) / artist / f"{artist} - {title}.flac"] *)
Definition output_file_of (output_dir : string) (track : Track) : Path :=
  let artist := artist track in
  let title := name track in
  let output_path := path_div [output_dir] artist in
  path_div output_path (artist +:+ " - " +:+ title +:+ ".flac").

Definition download_track (ia_item : IAItem) (output_dir : string)
    (track : Track) : M Env (option string) :=
  try_except
    (if negb (Py.truthy_opt (ia_identifier ia_item)) then ret None
     else
       let* response := session_get in
       run raise_for_status response in
       let* metadata := lift (json response) in
       match List.find is_flac_file (files_of metadata) with
       | None => ret None
       | Some flac_file =>
           let output_path := Pathlib.of_operands (path_div [output_dir] (artist track)) in
           run mkdir output_path in
           let output_file := Pathlib.of_operands (output_file_of output_dir track) in
           let* response := session_get in
           run raise_for_status response in
           let* total_size := lift (content_length response) in
           run save_stream output_file response in
           ret (Some (Pathlib.str output_file))
       end)
    (ret None).

End InternetArchiveClient.

(** ** multi_source_downloader.py *)

Module MultiSourceDownloader.

(** How a loop body ends: [return r], or on to the next iteration. *)
Inductive Ctl (A : Type) :=
  | Return (r : A)
  | Continue.
Arguments Return {A} r.
Arguments Continue {A}.

Section WithEnv.

(** The world the sources act on. *)
Context {E : Type}.

(** A source with [search_track(track)] and
    [download_track(item, output_dir, track)]: the Internet Archive and
    Jamendo clients. *)
Record Client := {
  item : Type;
  search_track : Track → M E (option item);
  download_track : item → string → Track → M E (option string);
}.

(** The Deezer client ([deemix_client.py]): [search_track(track)] and
    [download_track(item, output_dir)]. *)
Record DeemixClient := {
  deezer_item : Type;
  deezer_search_track : Track → M E (option deezer_item);
  deezer_download_track : deezer_item → string → M E (option string);
}.

(** The ['youtube'] entry: [searcher.search(track, retry_count)] and
    [downloader.download(url, track, progress_callback)]. *)
Record YouTube := {
  searcher_search : Track → Z → M E (option string);
  downloader_download : string → Track → M E (option string);
}.

(** A value of [self.sources]. *)
Inductive SourceObj :=
  | ClientObj (c : Client)
  | DeemixObj (d : DeemixClient)
  | YouTubeObj (y : YouTube).

(** The calls that leave the orchestrator for a source, by source key. *)
Inductive Event :=
  | Search (source : string)
  | Fetch (source : string).

(** The source an event belongs to. *)
Definition source_of (ev : Event) : string :=
  match ev with
  | Search source => source
  | Fetch source => source
  end.

(** [in_order l evs]: the events follow the list. Each event belongs to a
    source of [l], and once an event of a later source has occurred none of
    an earlier one does. *)
Inductive in_order : list string → list Event → Prop :=
  | in_order_nil l : in_order l []
  | in_order_skip source l evs :
      in_order l evs → in_order (source :: l) evs
  | in_order_here source l ev evs :
      source_of ev = source →
      in_order (source :: l) evs →
      in_order (source :: l) (ev :: evs).

(** [paired evs]: every fetch comes straight after a search of the same
    source. *)
Inductive paired : list Event → Prop :=
  | paired_nil : paired []
  | paired_search source evs : paired evs → paired (Search source :: evs)
  | paired_fetch source evs :
      paired evs → paired (Search source :: Fetch source :: evs).

(** The orchestrator's state: the world, [self.last_source], and (ghost) the
    calls made to the sources so far, oldest first. *)
Record State := {
  env : E;
  last_source : option string;
  trace : list Event;
}.

(** [s'] is [s] after the calls [evs], all made to the source [key]. *)
Definition extends (key : string) (s s' : State) (evs : list Event) : Prop :=
  trace s' = trace s ++ evs ∧ Forall (fun ev => source_of ev = key) evs.

(** The orchestrator object; [output_dir] is
    [config.get('download', {}).get('output_dir', './downloads')]. *)
Record t := {
  output_dir : string;
  sources : gmap string SourceObj;
  source_priority : list string;
}.

(** A call into a source: it acts on the world and is recorded. *)
Definition call {A} (ev : Event) (m : M E A) : M State A :=
  fun s =>
    let '(r, e') := m (env s) in
    (r, {| env := e'; last_source := last_source s; trace := trace s ++ [ev] |}).

Definition set_last_source (source : string) (s : State) : State :=
  {| env := env s; last_source := Some source; trace := trace s |}.

Variable self : t.

(** The body shared by [_download_from_internetarchive] and
    [_download_from_jamendo], for the entry under [key]. An entry of another
    kind fails with [AttributeError] or [TypeError] where the call does not
    fit it. *)
Definition download_from_client (key : string) (track : Track) : M State (option string) :=
  try_except
    (match sources self !! key with
     | None => ret None
     | Some (ClientObj c) =>
         let* found := call (Search key) (search_track c track) in
         match found with
         | None => ret None
         | Some it => call (Fetch key) (download_track c it (output_dir self) track)
         end
     | Some (DeemixObj d) =>
         let* found := call (Search key) (deezer_search_track d track) in
         match found with
         | None => ret None
         | Some _ => raise
         end
     | Some (YouTubeObj _) => raise
     end)
    (ret None).

Definition _download_from_internetarchive : Track → M State (option string) :=
  download_from_client "internetarchive".

Definition _download_from_jamendo : Track → M State (option string) :=
  download_from_client "jamendo".

Definition _download_from_deezer (track : Track) : M State (option string) :=
  try_except
    (match sources self !! "deezer" with
     | None => ret None
     | Some (DeemixObj d) =>
         let* found := call (Search "deezer") (deezer_search_track d track) in
         match found with
         | None => ret None
         | Some it => call (Fetch "deezer") (deezer_download_track d it (output_dir self))
         end
     | Some (ClientObj c) =>
         let* found := call (Search "deezer") (search_track c track) in
         match found with
         | None => ret None
         | Some _ => raise
         end
     | Some (YouTubeObj _) => raise
     end)
    (ret None).

Definition max_retries : Z := 2.

(** One pass of the retry loop of [_download_from_youtube]; the jittered
    sleep before a retry changes nothing that is observed here. *)
Definition youtube_attempt (track : Track) (attempt : Z) : M State (Ctl (option string)) :=
  try_except
    (match sources self !! "youtube" with
     | None => ret (Return None)
     | Some (YouTubeObj y) =>
         let* youtube_url := call (Search "youtube") (searcher_search y track attempt) in
         if negb (Py.truthy_opt youtube_url) then
           if attempt <? max_retries - 1 then ret Continue else ret (Return None)
         else
           let* output_path :=
             call (Fetch "youtube") (downloader_download y (default "" youtube_url) track) in
           if Py.truthy_opt output_path then ret (Return output_path)
           else ret Continue
     | Some _ => raise
     end)
    (ret Continue).

Fixpoint youtube_loop (track : Track) (attempts : list Z) : M State (option string) :=
  match attempts with
  | [] => ret None
  | attempt :: rest =>
      let* step := youtube_attempt track attempt in
      match step with
      | Return r => ret r
      | Continue => youtube_loop track rest
      end
  end.

(** [range(max_retries)] *)
Definition attempts : list Z := [0; 1].

Definition _download_from_youtube (track : Track) : M State (option string) :=
  youtube_loop track attempts.

(** The [if]/[elif] chain on [source]. *)
Definition dispatch (source : string) (track : Track) : option (M State (option string)) :=
  if String.eqb source "internetarchive" then Some (_download_from_internetarchive track)
  else if String.eqb source "jamendo" then Some (_download_from_jamendo track)
  else if String.eqb source "deezer" then Some (_download_from_deezer track)
  else if String.eqb source "youtube" then Some (_download_from_youtube track)
  else None.

(** The body of the [try] of [download] for one [source]. *)
Definition attempt (source : string) (track : Track) : M State (Ctl (option string)) :=
  match dispatch source track with
  | None => ret Continue
  | Some download_from =>
      let* result := download_from in
      if Py.truthy_opt result then
        run modify (set_last_source source) in
        ret (Return result)
      else ret Continue
  end.

(** [source in self.sources] *)
Definition active (source : string) : bool :=
  bool_decide (is_Some (sources self !! source)).

Fixpoint download_loop (track : Track) (priority : list string) : M State (option string) :=
  match priority with
  | [] => ret None
  | source :: rest =>
      if negb (active source) then download_loop track rest
      else
        let* step := try_except (attempt source track) (ret Continue) in
        match step with
        | Return r => ret r
        | Continue => download_loop track rest
        end
  end.

Definition download (track : Track) : M State (option string) :=
  download_loop track (source_priority self).

End WithEnv.
Arguments Client : clear implicits.
Arguments DeemixClient : clear implicits.
Arguments YouTube : clear implicits.
Arguments SourceObj : clear implicits.
Arguments State : clear implicits.
Arguments t : clear implicits.

Section Init.

Context {E : Type}.

(** What [__init__] and [_initialize_sources] read from [config]; a key that
    is absent is [None]. *)
Record Config := {
  cfg_source_priority : option (list string);  (* ['download']['source_priority'] *)
  cfg_output_dir : option string;              (* ['download']['output_dir'] *)
  cfg_internetarchive_enabled : option bool;   (* ['internetarchive']['enabled'] *)
  cfg_jamendo_enabled : option bool;           (* ['jamendo']['enabled'] *)
  cfg_deezer_enabled : option bool;            (* ['deezer']['enabled'] *)
  cfg_deezer_arl_token : option string;        (* ['deezer']['arl_token'] *)
}.

(** What the imports and constructors inside [_initialize_sources] give:
    each may raise. [import_deemix] is the value of [DEEMIX_AVAILABLE]. *)
Record Factory := {
  make_internetarchive : outcome (Client E);
  make_jamendo : outcome (Client E);
  import_deemix : outcome bool;
  make_deemix : string → outcome (DeemixClient E);
  make_youtube : outcome (YouTube E);
}.

(** [try: self.sources[key] = ... / except Exception: (logged)] *)
Definition try_add (key : string) (made : outcome (SourceObj E))
    (sources : gmap string (SourceObj E)) : gmap string (SourceObj E) :=
  match made with
  | Returns obj => <[key := obj]> sources
  | Raises => sources
  end.

Definition _initialize_sources (config : Config) (factory : Factory)
    : gmap string (SourceObj E) :=
  let sources := ∅ in
  let sources :=
    if default true (cfg_internetarchive_enabled config)
    then try_add "internetarchive"
           (let? c := make_internetarchive factory in Returns (ClientObj c)) sources
    else sources in
  let sources :=
    if default true (cfg_jamendo_enabled config)
    then try_add "jamendo"
           (let? c := make_jamendo factory in Returns (ClientObj c)) sources
    else sources in
  let sources :=
    if default false (cfg_deezer_enabled config)
       && Py.truthy_opt (cfg_deezer_arl_token config)
    then
      match import_deemix factory with
      | Returns true =>
          try_add "deezer"
            (let? d := make_deemix factory (default "" (cfg_deezer_arl_token config)) in
             Returns (DeemixObj d)) sources
      | Returns false => sources
      | Raises => sources
      end
    else sources in
  try_add "youtube"
    (let? y := make_youtube factory in Returns (YouTubeObj y)) sources.

(** [MultiSourceDownloader(config)] *)
Definition __init__ (config : Config) (factory : Factory) : t E :=
  {| output_dir := default "./downloads" (cfg_output_dir config);
     sources := _initialize_sources config factory;
     source_priority := default ["deezer"; "youtube"] (cfg_source_priority config) |}.

(** [is_source_available] *)
Definition is_source_available (self : t E) (source : string) : bool :=
  bool_decide (is_Some (sources self !! source)).

(** The entry under [key] is of the kind that [download] expects there. *)
Definition well_kinded (key : string) (obj : SourceObj E) : Prop :=
  match obj with
  | ClientObj _ => key = "internetarchive" ∨ key = "jamendo"
  | DeemixObj _ => key = "deezer"
  | YouTubeObj _ => key = "youtube"
  end.

End Init.
Arguments Config : clear implicits.
Arguments Factory : clear implicits.
End MultiSourceDownloader.

(** ** The sources that [_initialize_sources] builds from this repository *)

Module Sources.
Import Http MultiSourceDownloader.

(** [self.sources['jamendo'] = JamendoClient(self.config)] *)
Definition jamendo : SourceObj Env :=
  ClientObj {| item := JamendoTrack;
               search_track := JamendoClient.search_track;
               download_track := JamendoClient.download_track |}.

(** [self.sources['internetarchive'] = InternetArchiveClient(self.config)] *)
Definition internetarchive : SourceObj Env :=
  ClientObj {| item := IAItem;
               search_track := InternetArchiveClient.search_track;
               download_track := InternetArchiveClient.download_track |}.

End Sources.

(** ** Sample data *)

Module Samples.
Import Http MultiSourceDownloader.

Definition song : Track :=
  {| artist := "Artist"; name := "Song"; album := "Album";
     track_number := Some 1; duration_ms := Some 200000 |}.

Definition acdc : Track :=
  {| artist := "AC/DC"; name := "Back in Black"; album := "Back in Black";
     track_number := Some 6; duration_ms := Some 255000 |}.

Definition default_downloader : Downloader.t :=
  {| Downloader.output_dir := "downloads";
     Downloader.audio_format := "mp3";
     Downloader.skip_existing := true;
     Downloader.organize_by_artist := true;
     Downloader.filename_format := Downloader.default_filename_format |}.

(** Where an earlier run left the song, and the ledger after it was marked. *)
Definition song_mp3 : string := "downloads/Artist/Album/01 - Artist - Song.mp3".

Definition song_info : DownloadTracker.TrackedInfo :=
  {| DownloadTracker.ti_artist := "Artist";
     DownloadTracker.ti_name := "Song";
     DownloadTracker.ti_album := "Album";
     DownloadTracker.ti_file := song_mp3;
     DownloadTracker.ti_size := Some 5000000;
     DownloadTracker.ti_format := "mp3" |}.

Definition empty_ledger : DownloadTracker.t :=
  {| DownloadTracker.tracker_file := "downloads/.download_tracker.json";
     DownloadTracker.completed_tracks := ∅;
     DownloadTracker.saved := [] |}.

Definition song_ledger : DownloadTracker.t :=
  {| DownloadTracker.tracker_file := "downloads/.download_tracker.json";
     DownloadTracker.completed_tracks :=
       {[ "85de94c710011f5b73101126fac0e829" := song_info ]};
     DownloadTracker.saved :=
       [ {[ "85de94c710011f5b73101126fac0e829" := song_info ]} ] |}.

Definition disk : FileSystem := {[ song_mp3 := 5000000 ]}.

(** The directories that hold it. *)
Definition folders : gset string :=
  {[ "downloads"; "downloads/Artist"; "downloads/Artist/Album" ]}.

(** Jamendo's answers: one exact hit, then a FLAC body of 13 chunks of 8192
    bytes; or a body of a single chunk of 5000 bytes. *)
Definition hit : JamendoTrack :=
  {| jt_id := Some "1234"; jt_artist_name := Some "Artist";
     jt_name := Some "Song"; jt_duration := Some 200%float |}.

Definition search_reply : Reply :=
  Answer {| status_ok := true; content_type := Some "application/json";
            content_length := Returns 512;
            json := Returns (JamendoSearch (Some [hit]));
            chunks := []; stream_fails := false |}.

Definition audio_reply (n size : Z) : Response :=
  {| status_ok := true; content_type := Some "audio/flac";
     content_length := Returns (n * size);
     json := Raises;
     chunks := repeat (repeat Byte.x00 (Z.to_nat size)) (Z.to_nat n);
     stream_fails := false |}.

Definition world : Env :=
  {| fs := disk; dirs := folders;
     replies := [search_reply; Answer (audio_reply 13 8192)] |}.

Definition small_world : Env :=
  {| fs := disk; dirs := folders; replies := [Answer (audio_reply 1 5000)] |}.

(** A FLAC body announced with 106496 bytes that breaks off after 10. *)
Definition broken_audio : Response :=
  {| status_ok := true; content_type := Some "audio/flac";
     content_length := Returns 106496;
     json := Raises;
     chunks := [repeat Byte.x00 10];
     stream_fails := true |}.

Definition broken_world : Env :=
  {| fs := disk; dirs := folders; replies := [Answer broken_audio] |}.

(** A YouTube entry that would find and fetch anything. *)
Definition eager_youtube : SourceObj Env :=
  YouTubeObj {| searcher_search := fun _ _ => ret (Some "https://youtu.be/x");
                downloader_download := fun _ _ => ret (Some song_mp3) |}.

(** A client whose every call raises. *)
Definition broken_client : SourceObj Env :=
  ClientObj {| item := unit;
               search_track := fun _ => raise;
               download_track := fun _ _ _ => raise |}.

Definition orchestrator : MultiSourceDownloader.t Env :=
  {| output_dir := "downloads";
     sources := {[ "jamendo" := Sources.jamendo; "youtube" := eager_youtube ]};
     source_priority := ["deezer"; "jamendo"; "youtube"] |}.

Definition broken_orchestrator : MultiSourceDownloader.t Env :=
  {| output_dir := "downloads";
     sources := {[ "jamendo" := broken_client; "internetarchive" := broken_client ]};
     source_priority := ["internetarchive"; "jamendo"; "youtube"] |}.

Definition start (e : Env) : State Env :=
  {| env := e; last_source := None; trace := [] |}.

Definition song_flac : string := "downloads/Artist/Artist - Song.flac".

(** The disk with ten bytes at Jamendo's output path. *)
Definition partial_world : Env :=
  {| fs := <[song_flac := 10]> disk; dirs := folders; replies := [] |}.

(** The state in which Jamendo's attempt at the song ends, from [start world]. *)
Definition fetched : State Env :=
  {| env := {| fs := <[song_flac := 106496]> disk; dirs := folders; replies := [] |};
     last_source := Some "jamendo";
     trace := [Search "jamendo"; Fetch "jamendo"] |}.

(** Two Jamendo hits that differ in duration only, and one that matches the
    song by substrings alone. *)
Definition far_hit : JamendoTrack :=
  {| jt_id := Some "1"; jt_artist_name := Some "Artist";
     jt_name := Some "Song"; jt_duration := Some 215%float |}.

Definition near_hit : JamendoTrack :=
  {| jt_id := Some "2"; jt_artist_name := Some "Artist";
     jt_name := Some "Song"; jt_duration := Some 205%float |}.

Definition partial_hit : JamendoTrack :=
  {| jt_id := Some "3"; jt_artist_name := Some "The Artist Band";
     jt_name := Some "Song (Live)"; jt_duration := Some 500%float |}.

End Samples.

(** ** More sample data *)

Module MoreSamples.
Import Http MultiSourceDownloader Samples.

(** A hit with no artist name and no title. *)
Definition nameless_hit : JamendoTrack :=
  {| jt_id := Some "9"; jt_artist_name := None; jt_name := None;
     jt_duration := Some 30%float |}.

(** A file that [mutagen] reads as 100 s of audio wherever it is. *)
Definition short_audio (path : string) : Downloader.MutagenResult :=
  Downloader.MutagenAudio (Some 100%float).

(** A file that [mutagen] reads as 200 s of audio wherever it is. *)
Definition full_audio (path : string) : Downloader.MutagenResult :=
  Downloader.MutagenAudio (Some 200%float).

(** yt-dlp writing 4000000 bytes under the template, with the codec as
    extension. *)
Definition ydl_writes (url outtmpl codec : string) : M FileSystem unit :=
  modify (fun fs => <["downloads/Artist/Album/01 - Artist - Song." +:+ codec := 4000000]> fs).

(** The output path of the song, without extension, and a disk that has a
    file there. *)
Definition song_path : string := "downloads/Artist/Album/01 - Artist - Song".

Definition stale_disk : Downloader.Env :=
  {| Downloader.fs := {[ song_path := 1000 ]}; Downloader.ydl_calls := [] |}.

Definition empty_disk : Downloader.Env :=
  {| Downloader.fs := ∅; Downloader.ydl_calls := [] |}.

(** The empty disk after yt-dlp has fetched the song as mp3. *)
Definition fetched_disk : Downloader.Env :=
  {| Downloader.fs := {[ song_mp3 := 4000000 ]};
     Downloader.ydl_calls := ["https://youtu.be/x"] |}.

(** "Mr. Brightside", yt-dlp writing it under the name that the template
    gives, and the empty disk after that. *)
Definition brightside : Track :=
  {| artist := "The Killers"; name := "Mr. Brightside"; album := "Hot Fuss";
     track_number := Some 2; duration_ms := Some 222000 |}.

Definition ydl_brightside (url outtmpl codec : string) : M FileSystem unit :=
  modify (fun fs =>
    <["downloads/The Killers/Hot Fuss/02 - The Killers - Mr." +:+ codec := 4000000]> fs).

Definition brightside_disk : Downloader.Env :=
  {| Downloader.fs :=
       {[ "downloads/The Killers/Hot Fuss/02 - The Killers - Mr.mp3" := 4000000 ]};
     Downloader.ydl_calls := ["https://youtu.be/y"] |}.

(** An item of the Internet Archive, its metadata with one FLAC file, and a
    network that answers with the metadata and then a body of 5000 bytes. *)
Definition archive_item : IAItem :=
  {| ia_identifier := Some "artist-live"; ia_title := Some "Song";
     ia_creator := Some "Artist"; ia_format := Some (FormatList ["Flac"]) |}.

Definition flac_entry : IAFile :=
  {| f_format := Some "Flac"; f_name := Some "song.flac" |}.

Definition metadata_reply : Response :=
  {| status_ok := true; content_type := Some "application/json";
     content_length := Returns 256;
     json := Returns (IAMetadata (Some [flac_entry]));
     chunks := []; stream_fails := false |}.

Definition archive_world : Env :=
  {| fs := disk; dirs := folders;
     replies := [Answer metadata_reply; Answer (audio_reply 1 5000)] |}.

(** The AC/DC track against a network that answers with a full body, and
    the directories after the attempt. *)
Definition acdc_world : Env :=
  {| fs := disk; dirs := folders; replies := [Answer (audio_reply 13 8192)] |}.

Definition acdc_folders : gset string :=
  {[ "downloads"; "downloads/Artist"; "downloads/Artist/Album";
     "downloads/AC"; "downloads/AC/DC" ]}.

(** No configuration at all, and a machine on which every source can be
    built except Deezer. *)
Definition no_config : Config :=
  {| cfg_source_priority := None; cfg_output_dir := None;
     cfg_internetarchive_enabled := None; cfg_jamendo_enabled := None;
     cfg_deezer_enabled := None; cfg_deezer_arl_token := None |}.

Definition factory : Factory Env :=
  {| make_internetarchive :=
       Returns {| item := IAItem;
                  search_track := InternetArchiveClient.search_track;
                  download_track := InternetArchiveClient.download_track |};
     make_jamendo :=
       Returns {| item := JamendoTrack;
                  search_track := JamendoClient.search_track;
                  download_track := JamendoClient.download_track |};
     import_deemix := Raises;
     make_deemix := fun _ => Raises;
     make_youtube :=
       Returns {| searcher_search := fun _ _ => ret (Some "https://youtu.be/x");
                  downloader_download := fun _ _ => ret (Some song_mp3) |} |}.

End MoreSamples.

(** * Properties *)

(** ** The digest, on known inputs *)

Example md5_empty : Md5.hexdigest "" = "d41d8cd98f00b204e9800998ecf8427e".
Proof. vm_compute. reflexivity. Qed.

Example md5_abc : Md5.hexdigest "abc" = "900150983cd24fb0d6963f7d28e17f72".
Proof. vm_compute. reflexivity. Qed.

(** Seventy bytes: two blocks. *)
Example md5_two_blocks :
  Md5.hexdigest "aaaaaaaaaaaaaaaaaaaaaaaaaaaaaaaaaaaaaaaaaaaaaaaaaaaaaaaaaaaaaaaaaaaaaa"
    = "0f5c6c4e740bfcc08c3c26ccb2673d46".
Proof. vm_compute. reflexivity. Qed.

(** The identity of the sample song. *)
Example md5_song :
  DownloadTracker._get_track_id Samples.song = "85de94c710011f5b73101126fac0e829".
Proof. vm_compute. reflexivity. Qed.

(** ** The ledger *)

Section Ledger.
Import DownloadTracker.

Local Abbreviation track_id := _get_track_id (only parsing).

Lemma path_exists_true (fs : FileSystem) (p : string) :
  path_exists fs p = true ↔ is_Some (fs !! p).
Proof. unfold path_exists. apply bool_decide_eq_true. Qed.

(** What the currency check decides on. *)
Lemma is_downloaded_true (self : t) (fs : FileSystem) (track : Track) (file_path : string) :
  is_downloaded self fs track file_path = true ↔
  ∃ info size,
    fs !! file_path = Some size ∧
    completed_tracks self !! track_id track = Some info ∧
    ti_size info = Some size.
Proof.
  unfold is_downloaded, path_exists.
  destruct (fs !! file_path) as [size|] eqn:Hfs.
  - rewrite bool_decide_eq_true_2 by eauto. simpl.
    destruct (completed_tracks self !! track_id track) as [info|] eqn:Hid.
    + rewrite bool_decide_eq_true. split.
      * intros Hsz. exists info, size. auto.
      * intros (info' & size' & Hs & Hi & Hsz). congruence.
    + split; [discriminate|]. intros (? & ? & _ & ? & _). discriminate.
  - rewrite bool_decide_eq_false_2 by (intros [? ?]; discriminate). simpl.
    split; [discriminate|]. intros (? & ? & ? & _). discriminate.
Qed.

Lemma mark_downloaded_returns (self self' : t) (fs : FileSystem)
    (track : Track) (file_path : string) :
  mark_downloaded self fs track file_path = Returns self' →
  ∃ size,
    fs !! file_path = Some size ∧
    completed_tracks self' =
      <[track_id track :=
          {| ti_artist := artist track; ti_name := name track;
             ti_album := album track; ti_file := file_path;
             ti_size := Some size; ti_format := format_of file_path |}]>
        (completed_tracks self).
Proof.
  unfold mark_downloaded, stat_size.
  destruct (fs !! file_path) as [size|]; [|discriminate].
  intros [= <-]. exists size. split; reflexivity.
Qed.

(** An entry outlives every call that does not write or delete it. *)
Lemma after_call_other (self : t) (c : Call) (track_id : string) :
  ¬ touches track_id c →
  completed_tracks (after_call self c) !! track_id = completed_tracks self !! track_id.
Proof.
  destruct c as [fs tr p|fs tr p|tr]; simpl; intros Hother; [reflexivity| |].
  - destruct (mark_downloaded self fs tr p) as [self'|] eqn:Hmark; [|reflexivity].
    destruct (mark_downloaded_returns _ _ _ _ _ Hmark) as (size & _ & ->).
    by apply lookup_insert_ne.
  - unfold remove_track. case_bool_decide; [|reflexivity]. simpl.
    by apply lookup_delete_ne.
Qed.

Lemma after_calls_other (self : t) (later : list Call) (track_id : string) :
  Forall (fun c => ¬ touches track_id c) later →
  completed_tracks (fold_left after_call later self) !! track_id
    = completed_tracks self !! track_id.
Proof.
  intros Hall. revert self. induction Hall as [|c later Hc _ IH]; intros self; simpl.
  - reflexivity.
  - by rewrite IH, after_call_other.
Qed.

(** C7. If [mark_downloaded(R, F)] returns normally, then after any later
    calls on the tracker that do not themselves write or delete the entry of
    R (checks of any track, marks and removals of other identities), and on
    every file system where F has the size it had when it was marked,
    [is_downloaded(R, F)] is [True]. *)
Theorem mark_downloaded_is_current (self self' : t) (fs : FileSystem)
    (track : Track) (file_path : string) :
  mark_downloaded self fs track file_path = Returns self' →
  ∀ (later : list Call) (fs' : FileSystem),
    Forall (fun c => ¬ touches (track_id track) c) later →
    fs' !! file_path = fs !! file_path →
    is_downloaded (fold_left after_call later self') fs' track file_path = true.
Proof.
  intros Hmark later fs' Hlater Hsame.
  destruct (mark_downloaded_returns _ _ _ _ _ Hmark) as (size & Hfs & Hct).
  apply is_downloaded_true.
  eexists _, size. split; [congruence|].
  rewrite after_calls_other by assumption.
  rewrite Hct, lookup_insert_eq. split; reflexivity.
Qed.

(** C9. [remove_track] on an identity that the ledger does not hold gives the
    tracker back as it was: same mapping, no persistence write. On an
    identity that it holds, that entry is gone, every other key reads as
    before, and the new mapping is written once. *)
Theorem remove_track_frame (self : t) (track : Track) :
  (completed_tracks self !! track_id track = None →
     remove_track self track = self) ∧
  (is_Some (completed_tracks self !! track_id track) →
     let self' := remove_track self track in
     completed_tracks self' = delete (track_id track) (completed_tracks self) ∧
     completed_tracks self' !! track_id track = None ∧
     (∀ k, k ≠ track_id track →
           completed_tracks self' !! k = completed_tracks self !! k) ∧
     saved self' = saved self ++ [completed_tracks self']).
Proof.
  unfold remove_track. split.
  - intros Hnone. rewrite bool_decide_eq_false_2; [reflexivity|].
    rewrite Hnone. intros [? ?]; discriminate.
  - intros Hsome. rewrite bool_decide_eq_true_2 by assumption. simpl.
    repeat split.
    + apply lookup_delete_eq.
    + intros k Hk. apply lookup_delete_ne. congruence.
Qed.

End Ledger.

(** ** The matcher *)

Section Selection.

Context {C : Type} (score : C → Z).

(** Candidates that do not beat the running best leave it alone. *)
Lemma best_match_loop_keep (results : list C) (best_score : Z) (best_match : option C) :
  (∀ x, x ∈ results → score x ≤ best_score) →
  best_match_loop score results best_score best_match = (best_score, best_match).
Proof.
  induction results as [|r rest IH]; intros Hle; simpl; [reflexivity|].
  assert (score r ≤ best_score) as Hr by (apply Hle; left).
  destruct (Z.ltb_spec best_score (score r)); [lia|].
  apply IH. intros x Hx. apply Hle. by right.
Qed.

(** The loop ends on the first candidate of maximal score, provided that
    score beats the initial best. *)
Lemma best_match_loop_first_max (pre post : list C) (c : C)
    (best_score : Z) (best_match : option C) :
  best_score < score c →
  (∀ x, x ∈ pre → score x < score c) →
  (∀ x, x ∈ post → score x ≤ score c) →
  best_match_loop score (pre ++ c :: post) best_score best_match = (score c, Some c).
Proof.
  revert best_score best_match.
  induction pre as [|r pre IH]; intros b m Hb Hpre Hpost; simpl.
  - destruct (Z.ltb_spec b (score c)); [|lia].
    by apply best_match_loop_keep.
  - assert (score r < score c) by (apply Hpre; left).
    assert (∀ x, x ∈ pre → score x < score c) by (intros; apply Hpre; by right).
    destruct (Z.ltb_spec b (score r)); by apply IH.
Qed.

(** The running best never exceeds what has been seen. *)
Lemma best_match_loop_below (bound : Z) (results : list C)
    (best_score : Z) (best_match : option C) :
  best_score < bound →
  (∀ x, x ∈ results → score x < bound) →
  fst (best_match_loop score results best_score best_match) < bound.
Proof.
  revert best_score best_match.
  induction results as [|r rest IH]; intros b m Hb Hlt; simpl; [assumption|].
  assert (score r < bound) by (apply Hlt; left).
  assert (∀ x, x ∈ rest → score x < bound) by (intros; apply Hlt; by right).
  destruct (Z.ltb_spec b (score r)); by apply IH.
Qed.

Lemma select_first_max (pre post : list C) (c : C) :
  60 ≤ score c →
  (∀ x, x ∈ pre → score x < score c) →
  (∀ x, x ∈ post → score x ≤ score c) →
  accept_best (best_match_loop score (pre ++ c :: post) 0 None) = Some c.
Proof.
  intros H60 Hpre Hpost.
  rewrite best_match_loop_first_max by (auto; lia).
  unfold accept_best. simpl. destruct (Z.leb_spec 60 (score c)); [reflexivity|lia].
Qed.

Lemma select_none (results : list C) :
  (∀ x, x ∈ results → score x < 60) →
  accept_best (best_match_loop score results 0 None) = None.
Proof.
  intros Hlt. unfold accept_best.
  pose proof (best_match_loop_below 60 results 0 None ltac:(lia) Hlt).
  destruct (Z.leb_spec 60 (fst (best_match_loop score results 0 None))); [lia|reflexivity].
Qed.

(** Every non-empty list splits at its first candidate of maximal score. *)
Lemma first_max_exists (results : list C) :
  results ≠ [] →
  ∃ pre c post,
    results = pre ++ c :: post ∧
    (∀ x, x ∈ pre → score x < score c) ∧
    (∀ x, x ∈ post → score x ≤ score c).
Proof.
  induction results as [|r rest IH]; [done|]. intros _.
  destruct rest as [|r' rest'].
  - exists [], r, []. split; [reflexivity|]. split; intros x Hx; inversion Hx.
  - destruct IH as (pre & c & post & Heq & Hpre & Hpost); [done|].
    destruct (Z.lt_ge_cases (score r) (score c)) as [Hlt|Hge].
    + exists (r :: pre), c, post. rewrite Heq. split; [reflexivity|].
      split; [|assumption].
      intros x Hx. apply elem_of_cons in Hx as [->|Hx]; auto.
    + exists [], r, (r' :: rest'). split; [reflexivity|].
      split; [intros x Hx; inversion Hx|].
      intros x Hx. rewrite Heq in Hx.
      apply elem_of_app in Hx as [Hx|Hx].
      * specialize (Hpre x Hx). lia.
      * apply elem_of_cons in Hx as [->|Hx]; [lia|]. specialize (Hpost x Hx). lia.
Qed.

End Selection.

Section Matcher.
Import Http.

(** The duration bonus takes two values. *)
Lemma jamendo_duration_score_cases (t : Track) (c : JamendoTrack) :
  JamendoClient.duration_score t c = 0 ∨ JamendoClient.duration_score t c = 20.
Proof.
  unfold JamendoClient.duration_score.
  destruct (duration_ms t); [|by left].
  destruct (_ <=? _)%float; [by right|by left].
Qed.

(** C3. Both matchers score every candidate and return the earliest
    candidate of maximal score when that score is at least 60, and [None]
    when every score is below 60. Every non-empty list has such an earliest
    maximum, so one of the two cases applies. A Jamendo candidate whose artist
    and title match only as substrings and that gets no duration bonus scores
    exactly 60 and is selected. *)
Theorem find_best_match_selects_first_max (t : Track) :
  (∀ (pre post : list JamendoTrack) (c : JamendoTrack),
      (∀ x, x ∈ pre → JamendoClient.score t x < JamendoClient.score t c) →
      (∀ x, x ∈ post → JamendoClient.score t x ≤ JamendoClient.score t c) →
      (60 ≤ JamendoClient.score t c →
         JamendoClient._find_best_match t (pre ++ c :: post) = Some c) ∧
      (JamendoClient.score t c < 60 →
         JamendoClient._find_best_match t (pre ++ c :: post) = None)) ∧
  (∀ (pre post : list IAItem) (c : IAItem),
      (∀ x, x ∈ pre → InternetArchiveClient.score t x < InternetArchiveClient.score t c) →
      (∀ x, x ∈ post → InternetArchiveClient.score t x ≤ InternetArchiveClient.score t c) →
      (60 ≤ InternetArchiveClient.score t c →
         InternetArchiveClient._find_best_match t (pre ++ c :: post) = Some c) ∧
      (InternetArchiveClient.score t c < 60 →
         InternetArchiveClient._find_best_match t (pre ++ c :: post) = None)) ∧
  (∀ results : list JamendoTrack, results ≠ [] →
      ∃ pre c post, results = pre ++ c :: post ∧
        (∀ x, x ∈ pre → JamendoClient.score t x < JamendoClient.score t c) ∧
        (∀ x, x ∈ post → JamendoClient.score t x ≤ JamendoClient.score t c)) ∧
  (∀ results : list IAItem, results ≠ [] →
      ∃ pre c post, results = pre ++ c :: post ∧
        (∀ x, x ∈ pre → InternetArchiveClient.score t x < InternetArchiveClient.score t c) ∧
        (∀ x, x ∈ post → InternetArchiveClient.score t x ≤ InternetArchiveClient.score t c)) ∧
  (∀ c : JamendoTrack,
      let artist := Py.lower (artist t) in
      let title := Py.lower (name t) in
      let result_artist := Py.lower (default "" (jt_artist_name c)) in
      let result_title := Py.lower (default "" (jt_name c)) in
      artist ≠ result_artist →
      Py.str_in artist result_artist || Py.str_in result_artist artist = true →
      title ≠ result_title →
      Py.str_in title result_title || Py.str_in result_title title = true →
      JamendoClient.duration_score t c = 0 →
      JamendoClient.score t c = 60 ∧
      ∀ pre post,
        (∀ x, x ∈ pre → JamendoClient.score t x < 60) →
        (∀ x, x ∈ post → JamendoClient.score t x ≤ 60) →
        JamendoClient._find_best_match t (pre ++ c :: post) = Some c).
Proof.
  assert (∀ (C : Type) (score : C → Z) (pre post : list C) (c : C),
      (∀ x, x ∈ pre → score x < score c) →
      (∀ x, x ∈ post → score x ≤ score c) →
      (60 ≤ score c → accept_best (best_match_loop score (pre ++ c :: post) 0 None) = Some c) ∧
      (score c < 60 → accept_best (best_match_loop score (pre ++ c :: post) 0 None) = None))
    as Hsel.
  { intros C score pre post c Hpre Hpost. split; intros Hc.
    - by apply select_first_max.
    - apply select_none. intros x Hx.
      apply elem_of_app in Hx as [Hx|Hx]; [specialize (Hpre x Hx); lia|].
      apply elem_of_cons in Hx as [->|Hx]; [lia|]. specialize (Hpost x Hx). lia. }
  split; [intros; by apply Hsel|].
  split; [intros; by apply Hsel|].
  split; [intros; by apply first_max_exists|].
  split; [intros; by apply first_max_exists|].
  intros c artist title result_artist result_title Ha Hain Ht Htin Hd.
  assert (JamendoClient.score t c = 60) as H60.
  { unfold JamendoClient.score, JamendoClient.artist_score, JamendoClient.title_score.
    fold artist title result_artist result_title.
    rewrite Hd.
    destruct (String.eqb_spec artist result_artist); [done|].
    destruct (String.eqb_spec title result_title); [done|].
    rewrite Hain, Htin. reflexivity. }
  split; [exact H60|].
  intros pre post Hpre Hpost.
  apply Hsel; rewrite ?H60; auto; lia.
Qed.


End Matcher.

(** ** Path segments *)

Section Sanitize.
Import Downloader Samples.

Lemma char_in_replace_same (c new : ascii) (s : string) :
  c ≠ new → Py.char_in c (Py.replace c new s) = false.
Proof.
  intros Hne. induction s as [|d r IH]; simpl; [reflexivity|].
  rewrite IH, orb_false_r.
  destruct (Ascii.eqb_spec d c) as [->|Hd]; apply Ascii.eqb_neq; congruence.
Qed.

Lemma char_in_replace_other (c old new : ascii) (s : string) :
  c ≠ new → Py.char_in c s = false → Py.char_in c (Py.replace old new s) = false.
Proof.
  intros Hne. induction s as [|d r IH]; simpl; [reflexivity|].
  intros [Hd Hr]%orb_false_iff. rewrite (IH Hr), orb_false_r.
  destruct (Ascii.eqb d old); [by apply Ascii.eqb_neq|assumption].
Qed.

Lemma char_in_replace_each_absent (c : ascii) (chars s : string) :
  c ≠ "_"%char → Py.char_in c s = false →
  Py.char_in c (replace_each chars s) = false.
Proof.
  intros Hne. revert s. induction chars as [|d rest IH]; intros s Hs; simpl; [assumption|].
  apply IH. by apply char_in_replace_other.
Qed.

Lemma char_in_replace_each (c : ascii) (chars s : string) :
  c ≠ "_"%char → Py.char_in c chars = true →
  Py.char_in c (replace_each chars s) = false.
Proof.
  intros Hne. revert s. induction chars as [|d rest IH]; intros s; simpl; [discriminate|].
  destruct (Ascii.eqb_spec c d) as [->|Hd]; simpl.
  - intros _. apply char_in_replace_each_absent; [assumption|].
    by apply char_in_replace_same.
  - intros Hin. by apply IH.
Qed.

Lemma char_in_lstrip (c : ascii) (chars s : string) :
  Py.char_in c s = false → Py.char_in c (Py.lstrip chars s) = false.
Proof.
  induction s as [|d r IH]; simpl; [reflexivity|].
  intros [Hd Hr]%orb_false_iff.
  destruct (Py.char_in d chars); [by apply IH|]. simpl. by rewrite Hd, Hr.
Qed.

Lemma char_in_rstrip (c : ascii) (chars s : string) :
  Py.char_in c s = false → Py.char_in c (Py.rstrip chars s) = false.
Proof.
  induction s as [|d r IH]; simpl; [reflexivity|].
  intros [Hd Hr]%orb_false_iff. specialize (IH Hr).
  destruct (Py.rstrip chars r) as [|e r'].
  - destruct (Py.char_in d chars); [reflexivity|]. simpl. by rewrite Hd.
  - change (Py.char_in c (String d (String e r'))) with
      (Ascii.eqb c d || Py.char_in c (String e r')).
    by rewrite Hd, IH.
Qed.

(** What the YouTube path does for its segments: no invalid character is left
    in a sanitized name. *)
Lemma sanitize_filename_clean (filename : string) (c : ascii) :
  Py.char_in c invalid_chars = true →
  Py.char_in c (_sanitize_filename filename) = false.
Proof.
  intros Hin. unfold _sanitize_filename, Py.strip.
  apply char_in_rstrip, char_in_lstrip, char_in_replace_each; [|assumption].
  intros ->. vm_compute in Hin. discriminate.
Qed.

(** C2 (the code departs from it). For the track "AC/DC - Back in Black" the
    Jamendo and Internet Archive clients build their destination from the raw
    artist and title, so both segments keep the slash; the YouTube
    downloader's path has every invalid character replaced, for this track
    and for every name. *)
Theorem client_paths_keep_unsafe_characters :
  path_segments (JamendoClient.output_file_of "downloads" acdc)
    = ["AC/DC"; "AC/DC - Back in Black.flac"] ∧
  path_segments (InternetArchiveClient.output_file_of "downloads" acdc)
    = ["AC/DC"; "AC/DC - Back in Black.flac"] ∧
  path_str (JamendoClient.output_file_of "downloads" acdc)
    = "downloads/AC/DC/AC/DC - Back in Black.flac" ∧
  path_segments (_get_output_path default_downloader acdc)
    = ["AC_DC"; "Back in Black"; "06 - AC_DC - Back in Black"] ∧
  (∀ (t : Track) (c : ascii),
      Py.char_in c invalid_chars = true →
      Py.char_in c (_sanitize_filename (artist t)) = false ∧
      Py.char_in c (_sanitize_filename (album t)) = false ∧
      Py.char_in c (_sanitize_filename (name t)) = false).
Proof.
  repeat split; try (vm_compute; reflexivity); by apply sanitize_filename_clean.
Qed.

End Sanitize.

(** ** The completeness check *)

Section Validator.
Import Downloader.

(** C4. When the file's duration is readable and positive and the expected
    duration is defined (the track has a non-zero [duration_ms]), the check
    returns whether the computed ratio lies between 0.85 and 1.15, bounds
    included: a ratio of 0.85 or of 1.15 is valid, a ratio of 0.849 or of
    1.151 is not. *)
Theorem is_file_complete_ratio (length : option float) (fs : FileSystem)
    (file_path : string) (track : Track)
    (file_duration : float) (ms : Z) (expected_duration duration_ratio : float) :
  has_positive_length length = Some file_duration →
  duration_ms track = Some ms →
  Py.int_truediv ms 1000 = Returns expected_duration →
  Py.float_div file_duration expected_duration = Returns duration_ratio →
  _is_file_complete (MutagenAudio length) fs file_path track
    = Returns ((0.85 <=? duration_ratio)%float && (duration_ratio <=? 1.15)%float) ∧
  (_is_file_complete (MutagenAudio length) fs file_path track = Returns true ↔
     (0.85 <=? duration_ratio)%float = true ∧ (duration_ratio <=? 1.15)%float = true) ∧
  (duration_ratio = 0.85%float →
     _is_file_complete (MutagenAudio length) fs file_path track = Returns true) ∧
  (duration_ratio = 1.15%float →
     _is_file_complete (MutagenAudio length) fs file_path track = Returns true) ∧
  (duration_ratio = 0.849%float →
     _is_file_complete (MutagenAudio length) fs file_path track = Returns false) ∧
  (duration_ratio = 1.151%float →
     _is_file_complete (MutagenAudio length) fs file_path track = Returns false).
Proof.
  intros Hlen Hms Hexp Hratio.
  assert (_is_file_complete (MutagenAudio length) fs file_path track
    = Returns ((0.85 <=? duration_ratio)%float && (duration_ratio <=? 1.15)%float)) as Heq.
  { unfold _is_file_complete, _is_file_complete_body.
    rewrite Hlen, Hms. cbv beta iota delta [getitem obind].
    rewrite Hexp. cbv beta iota. rewrite Hratio. reflexivity. }
  split; [exact Heq|]. rewrite Heq.
  split.
  { split.
    - intros [= H]. by apply andb_true_iff in H.
    - intros [H1 H2]. by rewrite H1, H2. }
  repeat split; intros ->; reflexivity.
Qed.

(** A file of 170 s against a request of 200 000 ms: the ratio is 0.85. *)
Lemma is_file_complete_ratio_witness :
  _is_file_complete (MutagenAudio (Some 170%float)) ∅ "song.mp3"
      {| artist := "Artist"; name := "Song"; album := "Album";
         track_number := None; duration_ms := Some 200000 |}
    = Returns true.
Proof.
  refine (proj1 (proj2 (proj2
    (is_file_complete_ratio (Some 170%float) ∅ "song.mp3" _
       170%float 200000 200%float 0.85%float _ _ _ _))) _);
    first [reflexivity | vm_compute; reflexivity].
Defined.

End Validator.

(** ** The Jamendo fetch *)

Section JamendoFetch.
Import Http JamendoClient.

Lemma write_chunks_size (output_file : string) (cs : list (list Byte.byte))
    (e : Env) (n : Z) :
  fs e !! output_file = Some n →
  write_chunks output_file cs e
    = (Returns tt, {| fs := <[output_file := n + written cs]> (fs e);
                      dirs := dirs e; replies := replies e |}).
Proof.
  revert e n. induction cs as [|chunk rest IH]; intros e n Hn; simpl.
  - unfold ret. f_equal. destruct e as [fs0 ds rp]; simpl in *. f_equal.
    rewrite Z.add_0_r. symmetry. by apply insert_id.
  - destruct chunk as [|b chunk'].
    + rewrite (IH e n Hn). change (len []) with 0. by rewrite Z.add_0_l.
    + unfold bind, modify, set_fs. rewrite Hn. simpl default.
      erewrite IH by (simpl; apply lookup_insert_eq). simpl.
      rewrite insert_insert_eq. do 3 f_equal. lia.
Qed.

(** Where the file can be opened, the write leaves exactly the bytes that
    came, and raises if the stream broke. *)
Lemma save_stream_result (output_file : Pathlib.PurePath) (r : Response) (e : Env) :
  writable e output_file = true →
  save_stream output_file r e
    = ((if stream_fails r then Raises else Returns tt),
       {| fs := <[Pathlib.str output_file := written (chunks r)]> (fs e);
          dirs := dirs e; replies := replies e |}).
Proof.
  intros Hw. unfold save_stream, bind, open_wb, modify, set_fs. rewrite Hw.
  erewrite write_chunks_size by (simpl; apply lookup_insert_eq). simpl.
  rewrite insert_insert_eq. by destruct (stream_fails r).
Qed.

(** Where it cannot, nothing is written. *)
Lemma save_stream_refused (output_file : Pathlib.PurePath) (r : Response) (e : Env) :
  writable e output_file = false →
  save_stream output_file r e = (Raises, e).
Proof. intros Hw. unfold save_stream, bind, open_wb. by rewrite Hw. Qed.

(** The run of [download_track] once the artist directory is there, the file
    can be opened and the request is answered with an audio body. *)
Lemma jamendo_download_writes (jamendo_track : JamendoTrack) (output_dir : string)
    (track : Track) (e : Env) (r : Response) (rest : list Reply) (n : Z) :
  let output_path := Pathlib.of_operands [output_dir; artist track] in
  let output_file := Pathlib.of_operands (output_file_of output_dir track) in
  let after (files : FileSystem) : Env :=
    {| fs := files; dirs := dirs e ∪ list_to_set (chain output_path);
       replies := rest |} in
  Py.truthy_opt (jt_id jamendo_track) = true →
  blocked e output_path = false →
  writable (made output_path e) output_file = true →
  replies e = Answer r :: rest →
  status_ok r = true →
  Py.str_in "audio" (default "" (content_type r)) = true →
  content_length r = Returns n →
  download_track jamendo_track output_dir track e
    = if stream_fails r
      then (Returns None,
            after (<[Pathlib.str output_file := written (chunks r)]> (fs e)))
      else if written (chunks r) <? 100000
      then (Returns None, after (delete (Pathlib.str output_file) (fs e)))
      else (Returns (Some (Pathlib.str output_file)),
            after (<[Pathlib.str output_file := written (chunks r)]> (fs e))).
Proof.
  intros output_path output_file after Hid Hfree Hopen Hrep Hst Hct Hcl.
  cbv [download_track try_except bind mkdir session_get raise_for_status
       ret raise lift].
  change (path_div [output_dir] (artist track)) with [output_dir; artist track].
  fold output_path output_file.
  rewrite Hid; cbv [negb].
  rewrite Hfree; cbv beta iota.
  change (replies (made output_path e)) with (replies e).
  rewrite Hrep; cbv beta iota.
  rewrite Hst; cbv beta iota.
  rewrite Hct; cbv [negb].
  rewrite Hcl; cbv beta iota.
  rewrite save_stream_result by exact Hopen.
  cbv [made fs dirs replies].
  destruct (stream_fails r); [reflexivity|].
  cbv [stat stat_size fs]. rewrite lookup_insert_eq.
  destruct (written (chunks r) <? 100000); [|reflexivity].
  cbv [unlink path_exists set_fs fs dirs replies].
  rewrite bool_decide_eq_true_2 by (rewrite lookup_insert_eq; eauto).
  by rewrite delete_insert_eq.
Qed.

(** C10 (as the code has it). When the Jamendo fetch gets as far as writing
    its output (the hit has an id, the artist directory can be made, the
    output file can be opened in it, the request is answered with an audio
    body and a readable length) and fewer than 100000 bytes are written,
    [download_track] returns [None]. The file is gone when the stream ended
    normally; when the stream broke off, what was written stays. And whenever
    [download_track] returns a path, it is the output file, and that file
    exists with at least 100000 bytes. *)
Theorem jamendo_download_rejects_small_files
    (jamendo_track : JamendoTrack) (output_dir : string) (track : Track) :
  let output_path := Pathlib.of_operands [output_dir; artist track] in
  let output_file := Pathlib.of_operands (output_file_of output_dir track) in
  (∀ (e : Env) (r : Response) (rest : list Reply) (n : Z),
      Py.truthy_opt (jt_id jamendo_track) = true →
      blocked e output_path = false →
      writable (made output_path e) output_file = true →
      replies e = Answer r :: rest →
      status_ok r = true →
      Py.str_in "audio" (default "" (content_type r)) = true →
      content_length r = Returns n →
      written (chunks r) < 100000 →
      download_track jamendo_track output_dir track e
        = (Returns None,
           {| fs := if stream_fails r
                    then <[Pathlib.str output_file := written (chunks r)]> (fs e)
                    else delete (Pathlib.str output_file) (fs e);
              dirs := dirs e ∪ list_to_set (chain output_path);
              replies := rest |})) ∧
  (∀ (e e' : Env) (p : string),
      download_track jamendo_track output_dir track e = (Returns (Some p), e') →
      p = Pathlib.str output_file ∧
      ∃ size, fs e' !! p = Some size ∧ 100000 ≤ size).
Proof.
  intros output_path output_file. split.
  - intros e r rest n Hid Hfree Hopen Hrep Hst Hct Hcl Hsmall.
    rewrite (jamendo_download_writes jamendo_track output_dir track e r rest n)
      by assumption.
    fold output_path output_file.
    destruct (stream_fails r); [reflexivity|].
    destruct (Z.ltb_spec (written (chunks r)) 100000); [reflexivity|lia].
  - intros e e' p.
    unfold download_track, try_except.
    destruct (negb (Py.truthy_opt (jt_id jamendo_track))); [discriminate|].
    change (path_div [output_dir] (artist track)) with [output_dir; artist track].
    fold output_path output_file.
    unfold bind at 1. unfold mkdir.
    destruct (blocked e output_path); [discriminate|].
    unfold bind at 1. unfold session_get.
    change (replies (made output_path e)) with (replies e).
    destruct (replies e) as [|[|r] rest]; [discriminate..|].
    unfold bind at 1. unfold raise_for_status.
    destruct (status_ok r); [|discriminate]. unfold ret at 1.
    destruct (negb (Py.str_in "audio" (default "" (content_type r)))); [discriminate|].
    unfold bind at 1. unfold lift.
    destruct (content_length r) as [n|]; [|discriminate].
    unfold bind at 1.
    destruct (save_stream output_file r _) as [[[]|] e2]; [|discriminate].
    unfold bind at 1. unfold stat, stat_size.
    destruct (fs e2 !! Pathlib.str output_file) as [size|] eqn:Hsize; [|discriminate].
    destruct (Z.ltb_spec size 100000).
    + unfold bind, unlink.
      destruct (path_exists (fs e2) (Pathlib.str output_file)); discriminate.
    + unfold ret. intros [= <- <-]. split; [reflexivity|]. eauto.
Qed.

End JamendoFetch.

(** ** The orchestrator *)

Section Orchestrator.
Import MultiSourceDownloader.

Context {E : Type}.

Lemma in_order_app (source : string) (l : list string) (evs1 evs2 : list Event) :
  Forall (fun ev => source_of ev = source) evs1 →
  in_order l evs2 →
  in_order (source :: l) (evs1 ++ evs2).
Proof.
  intros Hall Hrest. induction Hall as [|ev evs1 Hev _ IH]; simpl.
  - by apply in_order_skip.
  - by apply in_order_here.
Qed.

Variable self : t E.

Ltac extends_by key evs :=
  solve
    [ eexists _, _, evs;
      split; [reflexivity|];
      split; [reflexivity|];
      split; [split; [simpl; rewrite <- ?app_assoc, ?app_nil_r; reflexivity
                     | repeat constructor]|];
      first [ discriminate | intros _; by exists [Search key] ] ].

Ltac step_by evs :=
  solve
    [ eexists _, _, evs;
      split; [reflexivity|];
      split; [reflexivity|];
      split; [split; [simpl; rewrite <- ?app_assoc, ?app_nil_r; reflexivity
                     | repeat constructor]|];
      first [ intros r Hr; discriminate Hr
            | intros r [= <-] Ht; discriminate Ht
            | intros r _ _; by exists [Search "youtube"] ] ].

Ltac solve_step :=
  first
    [ step_by (@nil Event)
    | step_by [Search "youtube"]
    | step_by [Search "youtube"; Fetch "youtube"] ].

Ltac solve_extends key :=
  first
    [ extends_by key (@nil Event)
    | extends_by key [Search key]
    | extends_by key [Search key; Fetch key] ].

(** An Internet Archive or Jamendo attempt always returns; what it calls is
    its own source; a path comes from a fetch, made last. *)
Lemma download_from_client_spec (key : string) (track : Track) (s : State E) :
  ∃ r s' evs,
    download_from_client self key track s = (Returns r, s') ∧
    last_source s' = last_source s ∧
    extends key s s' evs ∧
    (Py.truthy_opt r = true → ∃ pre, evs = pre ++ [Fetch key]).
Proof.
  unfold download_from_client, try_except, bind, call, ret, raise.
  destruct s as [e ls tr].
  destruct (sources self !! key) as [[c|d|y]|]; simpl.
  - destruct (search_track c track e) as [[[it|]|] e1]; simpl.
    + destruct (download_track c it (output_dir self) track e1) as [[r|] e2];
        solve_extends key.
    + solve_extends key.
    + solve_extends key.
  - destruct (deezer_search_track d track e) as [[[it|]|] e1]; solve_extends key.
  - solve_extends key.
  - solve_extends key.
Qed.

Lemma download_from_deezer_spec (track : Track) (s : State E) :
  ∃ r s' evs,
    _download_from_deezer self track s = (Returns r, s') ∧
    last_source s' = last_source s ∧
    extends "deezer" s s' evs ∧
    (Py.truthy_opt r = true → ∃ pre, evs = pre ++ [Fetch "deezer"]).
Proof.
  unfold _download_from_deezer, try_except, bind, call, ret, raise.
  destruct s as [e ls tr].
  destruct (sources self !! "deezer") as [[c|d|y]|]; simpl.
  - destruct (search_track c track e) as [[[it|]|] e1]; solve_extends "deezer".
  - destruct (deezer_search_track d track e) as [[[it|]|] e1]; simpl.
    + destruct (deezer_download_track d it (output_dir self) e1) as [[r|] e2];
        solve_extends "deezer".
    + solve_extends "deezer".
    + solve_extends "deezer".
  - solve_extends "deezer".
  - solve_extends "deezer".
Qed.

Lemma youtube_attempt_spec (track : Track) (attempt : Z) (s : State E) :
  ∃ step s' evs,
    youtube_attempt self track attempt s = (Returns step, s') ∧
    last_source s' = last_source s ∧
    extends "youtube" s s' evs ∧
    (∀ r, step = Return r → Py.truthy_opt r = true →
          ∃ pre, evs = pre ++ [Fetch "youtube"]).
Proof.
  unfold youtube_attempt, try_except, bind, call, ret, raise.
  destruct s as [e ls tr].
  destruct (sources self !! "youtube") as [[c|d|y]|]; simpl;
    try solve_step.
  destruct (searcher_search y track attempt e) as [[url|] e1]; simpl;
    try solve_step.
  destruct (Py.truthy_opt url); simpl.
  - destruct (downloader_download y (default "" url) track e1) as [[out|] e2];
      simpl; try solve_step.
    destruct (Py.truthy_opt out) eqn:Hout; solve_step.
  - destruct (attempt <? max_retries - 1); solve_step.
Qed.

Lemma youtube_loop_spec (track : Track) (attempts : list Z) (s : State E) :
  ∃ r s' evs,
    youtube_loop self track attempts s = (Returns r, s') ∧
    last_source s' = last_source s ∧
    extends "youtube" s s' evs ∧
    (Py.truthy_opt r = true → ∃ pre, evs = pre ++ [Fetch "youtube"]).
Proof.
  revert s. induction attempts as [|a rest IH]; intros s; simpl.
  - exists None, s, []. unfold ret, extends. rewrite app_nil_r.
    repeat split; [constructor|discriminate].
  - destruct (youtube_attempt_spec track a s)
      as (step & s1 & evs1 & Heq & Hls & [Htr Hall] & Hfetch).
    unfold bind. rewrite Heq. destruct step as [r|].
    + exists r, s1, evs1. unfold ret. repeat split; auto.
      intros Hr. by apply (Hfetch r).
    + destruct (IH s1) as (r & s2 & evs2 & Heq2 & Hls2 & [Htr2 Hall2] & Hfetch2).
      exists r, s2, (evs1 ++ evs2). rewrite Heq2.
      split; [reflexivity|]. split; [congruence|].
      split; [split; [rewrite Htr2, Htr; by rewrite app_assoc|by apply Forall_app]|].
      intros Hr. destruct (Hfetch2 Hr) as [pre ->].
      exists (evs1 ++ pre). by rewrite app_assoc.
Qed.

(** What one pass of the loop of [download] does for an active [source]. *)
Lemma attempt_spec (source : string) (track : Track) (s : State E) :
  ∃ step s' evs,
    attempt self source track s = (Returns step, s') ∧
    extends source s s' evs ∧
    match step with
    | Return r =>
        Py.truthy_opt r = true ∧ last_source s' = Some source ∧
        ∃ pre, evs = pre ++ [Fetch source]
    | Continue => last_source s' = last_source s
    end.
Proof.
  assert (∀ m : M (State E) (option string),
    (∃ r s' evs, m s = (Returns r, s') ∧ last_source s' = last_source s ∧
       extends source s s' evs ∧
       (Py.truthy_opt r = true → ∃ pre, evs = pre ++ [Fetch source])) →
    ∃ step s' evs,
      (let* result := m in
       if Py.truthy_opt result
       then run modify (set_last_source source) in ret (Return result)
       else ret Continue) s = (Returns step, s') ∧
      extends source s s' evs ∧
      match step with
      | Return r => Py.truthy_opt r = true ∧ last_source s' = Some source ∧
                    ∃ pre, evs = pre ++ [Fetch source]
      | Continue => last_source s' = last_source s
      end) as Hwrap.
  { intros m (r & s1 & evs & Heq & Hls & Hext & Hfetch).
    unfold bind at 1. rewrite Heq.
    destruct (Py.truthy_opt r) eqn:Hr.
    - exists (Return r), (set_last_source source s1), evs.
      split; [reflexivity|]. split; [exact Hext|]. auto.
    - exists Continue, s1, evs. split; [reflexivity|]. split; [exact Hext|]. exact Hls. }
  unfold attempt, dispatch.
  destruct (String.eqb_spec source "internetarchive") as [->|_];
    [apply Hwrap, download_from_client_spec|].
  destruct (String.eqb_spec source "jamendo") as [->|_];
    [apply Hwrap, download_from_client_spec|].
  destruct (String.eqb_spec source "deezer") as [->|_];
    [apply Hwrap, download_from_deezer_spec|].
  destruct (String.eqb_spec source "youtube") as [->|_];
    [apply Hwrap, youtube_loop_spec|].
  exists Continue, s, []. unfold ret, extends. rewrite app_nil_r.
  repeat split. constructor.
Qed.

Lemma try_attempt (source : string) (track : Track) (s : State E) :
  try_except (attempt self source track) (ret Continue) s
    = attempt self source track s.
Proof.
  destruct (attempt_spec source track s) as (step & s' & evs & Heq & _).
  unfold try_except. by rewrite Heq.
Qed.

(** The whole fallback loop. *)
Lemma download_loop_spec (track : Track) (priority : list string) (s : State E) :
  ∃ r s' evs,
    download_loop self track priority s = (Returns r, s') ∧
    trace s' = trace s ++ evs ∧
    in_order (List.filter (active self) priority) evs ∧
    match r with
    | Some p =>
        Py.truthy p = true ∧
        ∃ source pre,
          In source priority ∧ active self source = true ∧
          last_source s' = Some source ∧ evs = pre ++ [Fetch source]
    | None => last_source s' = last_source s
    end.
Proof.
  revert s. induction priority as [|source rest IH]; intros s; simpl.
  - exists None, s, []. unfold ret. rewrite app_nil_r.
    repeat split. constructor.
  - destruct (active self source) eqn:Hactive; simpl.
    + unfold bind. rewrite try_attempt.
      destruct (attempt_spec source track s)
        as (step & s1 & evs1 & Heq & [Htr Hall] & Hstep).
      rewrite Heq. destruct step as [r|].
      * destruct Hstep as (Hr & Hls & pre & Hpre).
        destruct r as [p|]; [|discriminate].
        exists (Some p), s1, evs1. unfold ret.
        split; [reflexivity|]. split; [exact Htr|].
        split; [rewrite <- (app_nil_r evs1); apply in_order_app; [done|constructor]|].
        split; [exact Hr|]. exists source, pre. auto.
      * destruct (IH s1) as (r & s2 & evs2 & Heq2 & Htr2 & Hord & Hres).
        exists r, s2, (evs1 ++ evs2). rewrite Heq2.
        split; [reflexivity|].
        split; [rewrite Htr2, Htr; by rewrite app_assoc|].
        split; [by apply in_order_app|].
        destruct r as [p|]; [|congruence].
        destruct Hres as (Hp & src & pre & Hin & Hact & Hls & ->).
        split; [exact Hp|]. exists src, (evs1 ++ pre).
        rewrite app_assoc. auto.
    + destruct (IH s) as (r & s' & evs & Heq & Htr & Hord & Hres).
      exists r, s', evs. repeat split; auto.
      destruct r as [p|]; [|exact Hres].
      destruct Hres as (Hp & src & pre & Hin & Hact & Hls & ->).
      split; [exact Hp|]. exists src, pre. auto.
Qed.

(** Sources that were tried without result do not matter to what follows. *)
Lemma download_loop_app (track : Track) (l1 l2 : list string) (s s1 : State E) :
  download_loop self track l1 s = (Returns None, s1) →
  download_loop self track (l1 ++ l2) s = download_loop self track l2 s1.
Proof.
  revert s. induction l1 as [|source rest IH]; intros s; simpl.
  - unfold ret. by intros [= ->].
  - destruct (active self source); simpl; [|apply IH].
    unfold bind. rewrite try_attempt.
    destruct (attempt_spec source track s) as (step & s' & evs & Heq & _ & Hstep).
    rewrite Heq. destruct step as [r|]; [|apply IH].
    unfold ret. intros [= -> _]. by destruct Hstep as [? _].
Qed.

(** C5. [download] returns normally from every state, whatever the sources
    do: a call into a source that raises ends that attempt without a result,
    and no attempt raises. An attempt without a result hands over to the rest
    of the priority list. When no attempt over the priority list yields a
    result, the value returned is [None]. *)
Theorem download_absorbs_failures (track : Track) :
  (∀ s, ∃ r s', download self track s = (Returns r, s')) ∧
  (∀ source s, fst (attempt self source track s) ≠ Raises) ∧
  (∀ source rest s,
     active self source = true →
     (∀ r, fst (attempt self source track s) ≠ Returns (Return r)) →
     download_loop self track (source :: rest) s
       = download_loop self track rest (snd (attempt self source track s))) ∧
  (∀ s,
     (∀ source s0 r, In source (source_priority self) →
        fst (attempt self source track s0) ≠ Returns (Return r)) →
     fst (download self track s) = Returns None).
Proof.
  split; [|split; [|split]].
  - intros s. unfold download.
    destruct (download_loop_spec track (source_priority self) s)
      as (r & s' & _ & Heq & _). eauto.
  - intros source s.
    destruct (attempt_spec source track s) as (step & s' & _ & Heq & _).
    by rewrite Heq.
  - intros source rest s Hactive Hfail. simpl. rewrite Hactive. simpl.
    unfold bind. rewrite try_attempt.
    destruct (attempt_spec source track s) as (step & s' & _ & Heq & _).
    rewrite Heq in *. simpl in *. destruct step as [r|]; [|reflexivity].
    by destruct (Hfail r).
  - intros s. unfold download. generalize (source_priority self) as priority.
    intros priority. revert s.
    induction priority as [|source rest IH]; intros s Hfail; simpl; [reflexivity|].
    assert (∀ source s0 r, In source rest →
      fst (attempt self source track s0) ≠ Returns (Return r)) as Hrest
      by (intros; apply Hfail; by right).
    destruct (active self source); simpl; [|by apply IH].
    unfold bind. rewrite try_attempt.
    destruct (attempt self source track s) as [[[r|]|] s1] eqn:Heq.
    + exfalso. apply (Hfail source s r); [by left|]. by rewrite Heq.
    + by apply IH.
    + exfalso. destruct (attempt_spec source track s) as (? & ? & ? & Heq' & _).
      congruence.
Qed.

(** C6. The calls that [download] makes follow the priority list restricted
    to the active sources: each call belongs to an active source of the list,
    and after a call to a later source there is none to an earlier one. And
    if the sources before [source] in the list gave no result, [source] is
    active and its attempt returns [r], then [download] returns [r] in the
    state that attempt ended in: the calls made are those up to and including
    that attempt, and no source after it in the list is called. *)
Theorem download_in_priority_order (track : Track) :
  (∀ s, ∃ r s' evs,
      download self track s = (Returns r, s') ∧
      trace s' = trace s ++ evs ∧
      in_order (List.filter (active self) (source_priority self)) evs) ∧
  (∀ l1 source l2 s s1 r s2,
      source_priority self = l1 ++ source :: l2 →
      download_loop self track l1 s = (Returns None, s1) →
      active self source = true →
      attempt self source track s1 = (Returns (Return r), s2) →
      download self track s = (Returns r, s2) ∧
      ∃ evs, trace s2 = trace s1 ++ evs ∧
             Forall (fun ev => source_of ev = source) evs).
Proof.
  split.
  - intros s. unfold download.
    destruct (download_loop_spec track (source_priority self) s)
      as (r & s' & evs & Heq & Htr & Hord & _). eauto 6.
  - intros l1 source l2 s s1 r s2 Hprio Hl1 Hactive Hattempt.
    unfold download. rewrite Hprio, (download_loop_app _ _ _ _ _ Hl1).
    simpl. rewrite Hactive. simpl. unfold bind. rewrite try_attempt, Hattempt.
    split; [reflexivity|].
    destruct (attempt_spec source track s1) as (step & s' & evs & Heq & [Htr Hall] & _).
    exists evs. rewrite Hattempt in Heq. injection Heq as _ <-. auto.
Qed.

End Orchestrator.

(** ** The ledger and the orchestrator together *)

Section CacheHit.
Import MultiSourceDownloader Samples.

(** C1 (as the code has it). [is_downloaded] is [True] exactly when the file
    exists and the ledger holds, under the request's identity, an entry whose
    recorded size is the file's size. [download] is not given the ledger:
    every path it returns is the result of a fetch from an active source of
    the priority list, made during the call and recorded in [last_source]. *)
Theorem cache_hit_is_checked_outside_download :
  (∀ (ledger : DownloadTracker.t) (fs : FileSystem) (track : Track) (file_path : string),
      DownloadTracker.is_downloaded ledger fs track file_path = true ↔
      ∃ info size,
        fs !! file_path = Some size ∧
        DownloadTracker.completed_tracks ledger !! DownloadTracker._get_track_id track
          = Some info ∧
        DownloadTracker.ti_size info = Some size) ∧
  (∀ (E : Type) (self : MultiSourceDownloader.t E) (track : Track)
     (s s' : State E) (p : string),
      download self track s = (Returns (Some p), s') →
      ∃ source pre,
        In source (source_priority self) ∧ active self source = true ∧
        last_source s' = Some source ∧
        trace s' = trace s ++ pre ++ [Fetch source]).
Proof.
  split; [apply is_downloaded_true|].
  intros E self track s s' p Hdl. unfold download in Hdl.
  destruct (download_loop_spec self track (source_priority self) s)
    as (r & s1 & evs & Heq & Htr & _ & Hres).
  rewrite Hdl in Heq. injection Heq as <- <-.
  destruct Hres as (_ & source & pre & Hin & Hact & Hls & ->).
  exists source, pre. auto.
Qed.

(** With a current ledger entry for the song (recorded size and size on disk
    both 5000000), [download] still searches Jamendo and fetches from it, and
    returns the new file, not the recorded one. *)
Lemma download_ignores_current_ledger_entry :
  DownloadTracker.is_downloaded song_ledger (Http.fs world) song song_mp3 = true ∧
  DownloadTracker.ti_file song_info = song_mp3 ∧
  download orchestrator song (start world) = (Returns (Some song_flac), fetched).
Proof. vm_compute. repeat split. Qed.

End CacheHit.

(** ** The properties on the sample data *)

Section Scenarios.
Import Http MultiSourceDownloader Samples.

(** The song is marked; the AC/DC track is then marked and removed, the song
    is checked, Jamendo's file appears on the disk: the song is still
    current. *)
Lemma mark_downloaded_is_current_witness :
  DownloadTracker.is_downloaded
    (fold_left DownloadTracker.after_call
       [DownloadTracker.CallMarkDownloaded disk acdc song_mp3;
        DownloadTracker.CallIsDownloaded disk song song_mp3;
        DownloadTracker.CallRemoveTrack acdc]
       song_ledger)
    (<[song_flac := 106496]> disk) song song_mp3
    = true.
Proof.
  apply (mark_downloaded_is_current empty_ledger song_ledger disk song song_mp3).
  - vm_compute. reflexivity.
  - repeat constructor; vm_compute; try tauto; discriminate.
  - vm_compute. reflexivity.
Defined.

Lemma remove_track_frame_witness :
  DownloadTracker.remove_track song_ledger acdc = song_ledger ∧
  DownloadTracker.completed_tracks (DownloadTracker.remove_track song_ledger song) = ∅.
Proof.
  split.
  - apply (proj1 (remove_track_frame song_ledger acdc)). vm_compute. reflexivity.
  - rewrite (proj1 (proj2 (remove_track_frame song_ledger song)
                      ltac:(vm_compute; eauto))).
    vm_compute. reflexivity.
Defined.

(** Scenario 2: substring matches on artist and title, no duration bonus. *)
Lemma find_best_match_selects_first_max_witness :
  JamendoClient.score song partial_hit = 60 ∧
  JamendoClient._find_best_match song [partial_hit] = Some partial_hit.
Proof.
  destruct (proj2 (proj2 (proj2 (proj2 (find_best_match_selects_first_max song))))
              partial_hit) as [H60 Hsel].
  - vm_compute. discriminate.
  - vm_compute. reflexivity.
  - vm_compute. discriminate.
  - vm_compute. reflexivity.
  - vm_compute. reflexivity.
  - split; [exact H60|]. apply (Hsel [] []); intros x Hx; inversion Hx.
Defined.


(** A body of 5000 bytes: nothing is returned and nothing is left. *)
Lemma jamendo_download_rejects_small_files_witness :
  JamendoClient.download_track hit "downloads" song small_world
    = (Returns None, {| fs := disk; dirs := folders; replies := [] |}).
Proof.
  rewrite (proj1 (jamendo_download_rejects_small_files hit "downloads" song)
             small_world (audio_reply 1 5000) [] 5000);
    vm_compute; reflexivity.
Defined.

(** Both clients raise on every call, YouTube is not set up. *)
Lemma download_absorbs_failures_witness :
  fst (download broken_orchestrator song (start world)) = Returns None.
Proof.
  apply (proj2 (proj2 (proj2 (download_absorbs_failures broken_orchestrator song)))).
  intros source s0 r [<-|[<-|[<-|[]]]]; vm_compute; discriminate.
Defined.

(** Deezer is not active, Jamendo succeeds, YouTube is never asked. *)
Lemma download_in_priority_order_witness :
  download orchestrator song (start world) = (Returns (Some song_flac), fetched).
Proof.
  apply (proj2 (download_in_priority_order orchestrator song)
           ["deezer"] "jamendo" ["youtube"] (start world) (start world)
           (Some song_flac) fetched);
    vm_compute; reflexivity.
Defined.

(** Scenario 1: the artist is contained in the creator, the title is the
    item's title, no format is listed: 50 + 50. *)
Example internetarchive_scenario :
  let item := {| ia_identifier := Some "artist-live"; ia_title := Some "Song";
                 ia_creator := Some "Artist and Friends"; ia_format := None |} in
  InternetArchiveClient.score song item = 100 ∧
  InternetArchiveClient._find_best_match song [item] = Some item.
Proof. vm_compute. split; reflexivity. Qed.

(** Scenario 3: 100 s against 200 s. *)
Example half_length_is_incomplete :
  Downloader._is_file_complete (Downloader.MutagenAudio (Some 100%float))
    disk song_mp3 song = Returns false.
Proof. vm_compute. reflexivity. Qed.

(** With [duration_ms = 0] the division raises and the size decides. *)
Example zero_duration_falls_back_to_size :
  Downloader._is_file_complete (Downloader.MutagenAudio (Some 100%float))
    disk song_mp3
    {| artist := "Artist"; name := "Song"; album := "Album";
       track_number := Some 1; duration_ms := Some 0 |}
    = Returns true.
Proof. vm_compute. reflexivity. Qed.

Example sanitize_filename_example :
  Downloader._sanitize_filename " ..AC/DC: Who Made Who?. " = "AC_DC_ Who Made Who_".
Proof. vm_compute. reflexivity. Qed.

Example format_of_examples :
  DownloadTracker.format_of song_mp3 = "mp3" ∧
  DownloadTracker.format_of "downloads/a.b/.hidden" = "" ∧
  DownloadTracker.format_of "downloads/a.b/song.tar.gz" = "gz".
Proof. vm_compute. repeat split. Qed.

(** A hit that scores 120 keeps its place against a later one that scores
    the same. *)
Example first_of_equals_wins :
  JamendoClient._find_best_match song [partial_hit; near_hit; hit; far_hit]
    = Some near_hit ∧
  JamendoClient._find_best_match song [far_hit; partial_hit] = Some far_hit ∧
  JamendoClient._find_best_match song [] = None.
Proof. vm_compute. repeat split. Qed.

(** A body that breaks off after ten bytes: nothing is returned, and the ten
    bytes stay on the disk, far below the 100000 that the check asks for. *)
Lemma jamendo_keeps_partial_file :
  written (chunks broken_audio) = 10 ∧
  JamendoClient.download_track hit "downloads" song broken_world
    = (Returns None, partial_world) ∧
  fs partial_world !! song_flac = Some 10.
Proof. vm_compute. repeat split. Qed.

End Scenarios.

(** * Further properties of the code *)

(** ** The ledger: persistence and statistics *)

Section LedgerMore.
Import DownloadTracker.

(** The ledger and the last document handed to a write agree after every
    call. *)
Lemma after_call_in_sync (self : t) (c : Call) :
  (saved (after_call self c) = saved self ∧
   completed_tracks (after_call self c) = completed_tracks self) ∨
  last (saved (after_call self c)) = Some (completed_tracks (after_call self c)).
Proof.
  destruct c as [fs tr p|fs tr p|tr]; simpl.
  - by left.
  - unfold mark_downloaded. destruct (stat_size fs p); [|by left].
    right. simpl. by rewrite last_snoc.
  - unfold remove_track. case_bool_decide; [|by left].
    right. simpl. by rewrite last_snoc.
Qed.

(** Over a session, either nothing was written and the ledger is what was
    loaded, or the last write was handed the ledger as it is now. *)
Lemma session_in_sync (output_dir : string) (file : TrackerFile) (calls : list Call) :
  let self := fold_left after_call calls (__init__ output_dir file) in
  (saved self = [] ∧ completed_tracks self = _load_tracker file) ∨
  last (saved self) = Some (completed_tracks self).
Proof.
  simpl.
  assert (∀ self0 : t,
            (saved self0 = [] ∧ completed_tracks self0 = _load_tracker file) ∨
            last (saved self0) = Some (completed_tracks self0) →
            (saved (fold_left after_call calls self0) = [] ∧
             completed_tracks (fold_left after_call calls self0) = _load_tracker file) ∨
            last (saved (fold_left after_call calls self0))
              = Some (completed_tracks (fold_left after_call calls self0))) as Hstep.
  { induction calls as [|c calls IH]; intros self0 H0; simpl; [exact H0|].
    apply IH.
    destruct (after_call_in_sync self0 c) as [[Hs Hc]|Hlast]; [|by right].
    rewrite Hs, Hc. exact H0. }
  apply Hstep. left. by split.
Qed.

(** The file after the last of the writes. *)
Lemma file_after_snoc (file : TrackerFile) (fates : list WriteFate) (fate : WriteFate)
    (docs : list (gmap string TrackedInfo)) (doc : gmap string TrackedInfo) :
  length fates = length docs →
  file_after file (fates ++ [fate]) (docs ++ [doc])
    = write_tracker (file_after file fates docs) fate doc.
Proof.
  revert file fates. induction docs as [|d docs IH]; intros file fates Hlen.
  - destruct fates; [reflexivity|discriminate].
  - destruct fates as [|f fates]; [discriminate|]. simpl in *.
    apply IH. congruence.
Qed.

(** X1. The tracker file against the ledger, over a session that starts from
    the file and makes any calls, each write of [_save_tracker] ending as
    [fates] tells. If nothing was written, or the last write went through,
    the file loads to exactly the in-memory ledger, so the next session
    starts from where this one ended. If the last write broke off, the next
    session starts from the empty ledger, and if it was refused, from what
    the writes before it left: the failure is swallowed and the ledger in
    memory is ahead of the file. *)
Theorem tracker_file_in_step (output_dir : string) (file : TrackerFile)
    (calls : list Call) (fates : list WriteFate) :
  let self := fold_left after_call calls (__init__ output_dir file) in
  let next := __init__ output_dir (file_after file fates (saved self)) in
  length fates = length (saved self) →
  match last fates with
  | None | Some Completed => completed_tracks next = completed_tracks self
  | Some Torn => completed_tracks next = ∅
  | Some Refused =>
      completed_tracks next
        = _load_tracker (file_after file (removelast fates) (removelast (saved self)))
  end.
Proof.
  intros self next Hlen. subst next. simpl.
  destruct (session_in_sync output_dir file calls) as [[Hnil Hc]|Hlast];
    fold self in Hnil, Hc || fold self in Hlast.
  - rewrite Hnil in *. destruct fates; [|discriminate]. simpl. by rewrite Hc.
  - destruct (saved self) as [|d0 docs0] eqn:Hsaved using rev_ind; [discriminate|].
    clear IHdocs0. rewrite last_snoc in Hlast. injection Hlast as ->.
    destruct fates as [|f0 fates0] using rev_ind;
      [rewrite length_app in Hlen; simpl in Hlen; lia|].
    clear IHfates0. rewrite !length_app in Hlen. simpl in Hlen.
    rewrite last_snoc, file_after_snoc by lia.
    rewrite !removelast_last.
    by destruct f0.
Qed.

(** X2. [get_stats] counts every entry once: the total is the number of
    entries, a format that some entry has is reported with the number of
    entries that have it, and a format that no entry has is not reported. *)
Theorem get_stats_counts (self : t) (fmt : string) :
  total_downloaded (get_stats self) = Z.of_nat (size (completed_tracks self)) ∧
  formats (get_stats self) !! fmt =
    (if decide (size (with_format fmt (completed_tracks self)) = 0%nat)
     then None
     else Some (Z.of_nat (size (with_format fmt (completed_tracks self))))).
Proof.
  split; [reflexivity|]. simpl. unfold _count_formats. revert fmt.
  set (P := fun (fm : gmap string Z) (m : gmap string TrackedInfo) =>
       ∀ fmt, fm !! fmt =
         if decide (size (with_format fmt m) = 0%nat) then None
         else Some (Z.of_nat (size (with_format fmt m)))).
  change (P (map_fold
    (fun (_ : string) track_info formats =>
       let fmt := ti_format track_info in
       <[fmt := default 0 (formats !! fmt) + 1]> formats)
    ∅ (completed_tracks self)) (completed_tracks self)).
  apply map_fold_weak_ind; unfold P, with_format.
  - intros fmt. rewrite map_filter_empty, map_size_empty.
    by rewrite lookup_empty.
  - intros k info m fm Hk IH fmt. simpl.
    destruct (decide (ti_format info = fmt)) as [<-|Hne].
    + rewrite lookup_insert_eq, map_filter_insert_True by done.
      rewrite map_size_insert_None by (rewrite map_lookup_filter_None; by left).
      rewrite IH. rewrite (decide_False (P:=S _ = 0%nat)) by lia.
      case_decide as H0; [by rewrite H0|]. simpl. f_equal. lia.
    + rewrite lookup_insert_ne by done.
      rewrite map_filter_insert_not' by (simpl; first [congruence | intros; congruence]).
      apply IH.
Qed.

End LedgerMore.

(** ** The downloader: names and codecs *)

Section DownloaderMore.
Import Downloader.

Lemma char_in_cons (c d : ascii) (r : string) :
  Py.char_in c (String d r) = true → c = d ∨ Py.char_in c r = true.
Proof.
  simpl. intros [Hd|Hr]%orb_true_iff; [left; by apply Ascii.eqb_eq|by right].
Qed.

Lemma replace_absent (old new : ascii) (s : string) :
  Py.char_in old s = false → Py.replace old new s = s.
Proof.
  induction s as [|d r IH]; simpl; [reflexivity|].
  intros [Hd Hr]%orb_false_iff. rewrite (IH Hr).
  rewrite Ascii.eqb_sym, Hd. reflexivity.
Qed.

Lemma replace_each_absent (chars s : string) :
  (∀ c, Py.char_in c chars = true → Py.char_in c s = false) →
  replace_each chars s = s.
Proof.
  induction chars as [|d rest IH]; simpl; intros Habs; [reflexivity|].
  rewrite replace_absent by (apply Habs; by rewrite Ascii.eqb_refl).
  apply IH. intros c Hc. apply Habs. by rewrite Hc, orb_true_r.
Qed.

Lemma lstrip_fixed (chars s : string) :
  Py.lstrip chars (Py.lstrip chars s) = Py.lstrip chars s.
Proof.
  induction s as [|c r IH]; simpl; [reflexivity|].
  destruct (Py.char_in c chars) eqn:Hc; [exact IH|]. simpl. by rewrite Hc.
Qed.

Lemma rstrip_fixed (chars s : string) :
  Py.rstrip chars (Py.rstrip chars s) = Py.rstrip chars s.
Proof.
  induction s as [|c r IH]; simpl; [reflexivity|].
  destruct (Py.rstrip chars r) as [|d r'] eqn:Hr.
  - destruct (Py.char_in c chars) eqn:Hc; simpl; [reflexivity|]. by rewrite Hc.
  - change (Py.rstrip chars (String c (String d r')))
      with (match Py.rstrip chars (String d r') with
            | EmptyString =>
                if Py.char_in c chars then EmptyString else String c EmptyString
            | r'' => String c r''
            end).
    by rewrite IH.
Qed.

(** Stripping the right end leaves a stripped left end alone. *)
Lemma lstrip_rstrip (chars s : string) :
  Py.lstrip chars s = s →
  Py.lstrip chars (Py.rstrip chars s) = Py.rstrip chars s.
Proof.
  destruct s as [|c r]; [reflexivity|]. simpl.
  destruct (Py.char_in c chars) eqn:Hc.
  - intros Heq. exfalso.
    assert (∀ x, String.length (Py.lstrip chars x) ≤ String.length x)%nat as Hlen.
    { intros x. induction x as [|a x' IHx]; simpl; [lia|].
      destruct (Py.char_in a chars); simpl; lia. }
    specialize (Hlen r). rewrite Heq in Hlen. simpl in Hlen. lia.
  - intros _. destruct (Py.rstrip chars r); simpl; by rewrite Hc.
Qed.

Lemma strip_fixed (chars s : string) :
  Py.strip chars (Py.strip chars s) = Py.strip chars s.
Proof.
  unfold Py.strip.
  rewrite lstrip_rstrip by apply lstrip_fixed.
  apply rstrip_fixed.
Qed.

Lemma lstrip_all (chars s : string) :
  (∀ c, Py.char_in c s = true → Py.char_in c chars = true) →
  Py.lstrip chars s = "".
Proof.
  induction s as [|c r IH]; simpl; intros Hall; [reflexivity|].
  rewrite (Hall c) by (by rewrite Ascii.eqb_refl).
  apply IH. intros d Hd. apply Hall. by rewrite Hd, orb_true_r.
Qed.

(** X3. Sanitizing is a projection: a sanitized name is left as it is by a
    second pass. A name made only of dots and spaces sanitizes to the empty
    string. *)
Theorem sanitize_filename_fixed (filename : string) :
  _sanitize_filename (_sanitize_filename filename) = _sanitize_filename filename ∧
  ((∀ c, Py.char_in c filename = true → Py.char_in c ". " = true) →
   _sanitize_filename filename = "").
Proof.
  split.
  - unfold _sanitize_filename at 1.
    rewrite replace_each_absent by (intros c Hc; by apply sanitize_filename_clean).
    unfold _sanitize_filename. apply strip_fixed.
  - intros Hall. unfold _sanitize_filename, Py.strip.
    rewrite replace_each_absent.
    + by rewrite lstrip_all.
    + intros c Hc. destruct (Py.char_in c filename) eqn:Hin; [|reflexivity].
      exfalso. specialize (Hall c Hin).
      cbv [invalid_chars String.append] in Hc.
      repeat match type of Hc with
             | Py.char_in _ (String _ _) = true =>
                 apply char_in_cons in Hc as [->|Hc];
                 [vm_compute in Hall; discriminate|]
             end.
      discriminate.
Qed.

Lemma lower_ascii_fixed (c : ascii) :
  Py.lower_ascii (Py.lower_ascii c) = Py.lower_ascii c.
Proof. destruct c as [[] [] [] [] [] [] [] []]; reflexivity. Qed.

Lemma lower_fixed (s : string) : Py.lower (Py.lower s) = Py.lower s.
Proof.
  induction s as [|c r IH]; simpl; [reflexivity|].
  by rewrite lower_ascii_fixed, IH.
Qed.

Lemma codec_map_lookup (k v : string) :
  codec_map !! k = Some v →
  v = k ∧ In v ["mp3"; "flac"; "wav"; "m4a"; "opus"; "vorbis"].
Proof.
  unfold codec_map.
  repeat (rewrite lookup_insert; case_decide;
          [subst k; intros [= <-]; split; [reflexivity|simpl; tauto]|]).
  rewrite lookup_singleton_Some. intros [<- <-]. split; [reflexivity|simpl; tauto].
Qed.

Lemma get_codec_known (self : Downloader.t) :
  In (_get_codec self) ["mp3"; "flac"; "wav"; "m4a"; "opus"; "vorbis"].
Proof.
  unfold _get_codec.
  destruct (codec_map !! Py.lower (audio_format self)) as [v|] eqn:Hv; simpl.
  - by destruct (codec_map_lookup _ _ Hv).
  - tauto.
Qed.

(** X4. [_get_codec] is the lowered [audio_format] when that is one of the
    six codecs of the table, and mp3 for everything else. So the codec is
    always one of the six, the letter case of [audio_format] does not matter,
    and a codec given as format is kept. *)
Theorem get_codec_total (self : Downloader.t) :
  let codecs := ["mp3"; "flac"; "wav"; "m4a"; "opus"; "vorbis"] in
  (In (Py.lower (audio_format self)) codecs →
     _get_codec self = Py.lower (audio_format self)) ∧
  (¬ In (Py.lower (audio_format self)) codecs → _get_codec self = "mp3") ∧
  In (_get_codec self) codecs ∧
  _get_codec (with_audio_format self (Py.lower (audio_format self))) = _get_codec self ∧
  _get_codec (with_audio_format self (_get_codec self)) = _get_codec self.
Proof.
  intros codecs.
  assert (∀ v, In v codecs → codec_map !! v = Some v ∧ Py.lower v = v) as Hfix.
  { intros v Hv. simpl in Hv.
    repeat (destruct Hv as [<-|Hv]; [vm_compute; split; reflexivity|]). destruct Hv. }
  pose proof (get_codec_known self) as Hin.
  split; [|split; [|split; [exact Hin|split]]].
  - intros Hk. unfold _get_codec. by rewrite (proj1 (Hfix _ Hk)).
  - intros Hk. unfold _get_codec.
    destruct (codec_map !! Py.lower (audio_format self)) as [v|] eqn:Hv;
      [|reflexivity].
    destruct (codec_map_lookup _ _ Hv) as [-> Hv']. contradiction.
  - unfold _get_codec. simpl. by rewrite lower_fixed.
  - unfold _get_codec at 1. simpl.
    destruct (Hfix _ Hin) as [Hlook Hlow]. by rewrite Hlow, Hlook.
Qed.

(** ["FLAC"] is flac, ["Vorbis"] is vorbis, and ["ogg"], ["aac"] and the
    empty format are mp3. *)
Example get_codec_examples :
  map (fun fmt => _get_codec (with_audio_format Samples.default_downloader fmt))
      ["FLAC"; "Vorbis"; "wav"; "ogg"; "aac"; ""]
  = ["flac"; "vorbis"; "wav"; "mp3"; "mp3"; "mp3"].
Proof. vm_compute. reflexivity. Qed.

Lemma char_in_app (c : ascii) (a b : string) :
  Py.char_in c (a +:+ b) = Py.char_in c a || Py.char_in c b.
Proof.
  induction a as [|d r IH]; simpl; [reflexivity|]. by rewrite IH, orb_assoc.
Qed.

Lemma invalid_not_digit (c : ascii) :
  Py.char_in c invalid_chars = true → Py.char_in c "-0123456789" = false.
Proof.
  intros Hc. cbv [invalid_chars String.append] in Hc.
  repeat match type of Hc with
         | Py.char_in _ (String _ _) = true =>
             apply char_in_cons in Hc as [->|Hc]; [vm_compute; reflexivity|]
         end.
  discriminate.
Qed.

Lemma pretty_N_char_digit (x : N) :
  Py.char_in (pretty_N_char x) "-0123456789" = true.
Proof. unfold pretty_N_char. repeat case_match; reflexivity. Qed.

Lemma pretty_N_go_free (x : N) (s : string) :
  free_of_invalid s → free_of_invalid (pretty_N_go x s).
Proof.
  revert s. induction (N.lt_wf_0 x) as [x _ IH]; intros s Hs.
  destruct (decide (x = 0)%N) as [->|Hx]; [by rewrite pretty_N_go_0|].
  rewrite pretty_N_go_step by lia.
  apply IH; [apply N.div_lt; lia|].
  intros c Hc. simpl. rewrite (Hs c Hc), orb_false_r.
  apply Ascii.eqb_neq. intros ->.
  pose proof (pretty_N_char_digit (x `mod` 10)) as Hd.
  by rewrite (invalid_not_digit _ Hc) in Hd.
Qed.

Lemma pretty_Z_free (n : Z) : free_of_invalid (pretty n).
Proof.
  assert (free_of_invalid "") as Hnil by (intros c _; reflexivity).
  assert (∀ p, free_of_invalid (pretty (Npos p))) as Hpos.
  { intros p. unfold pretty, pretty_N. rewrite decide_False by done.
    by apply pretty_N_go_free. }
  destruct n as [|p|p].
  - intros c Hc. apply invalid_not_digit in Hc.
    change (pretty 0) with "0". simpl in *.
    apply orb_false_iff in Hc as [_ [H0 _]%orb_false_iff]. by rewrite H0.
  - apply Hpos.
  - change (pretty (Z.neg p)) with ("-" +:+ pretty (N.pos p)).
    intros c Hc. rewrite char_in_app, (Hpos p c Hc), orb_false_r.
    apply invalid_not_digit in Hc. simpl in *.
    apply orb_false_iff in Hc as [Hm _]. by rewrite Hm.
Qed.

Lemma format_field_free (artist title album : string) (n : Z) (f : FormatField) :
  free_of_invalid artist → free_of_invalid title → free_of_invalid album →
  clean_field f →
  free_of_invalid (format_field artist title album n f).
Proof.
  intros Ha Ht Hal Hf. destruct f; simpl; try done.
  - apply pretty_Z_free.
  - unfold format_02d. destruct (_ <? _)%nat; [|apply pretty_Z_free].
    intros c Hc. rewrite char_in_app, (pretty_Z_free n c Hc), orb_false_r.
    apply invalid_not_digit in Hc. simpl in *.
    apply orb_false_iff in Hc as [_ [H0 _]%orb_false_iff]. by rewrite H0.
Qed.

(** X5. With the default [filename_format],
    ['{track_number:02d} - {artist} - {title}'], no segment that
    [_get_output_path] appends to the output directory holds an invalid
    character: the artist and album directories and the file name are all
    free of them, whatever the track's metadata and track number. The same
    holds for every format made of literal text without invalid characters
    and the plain fields [{artist}], [{title}], [{album}], [{track_number}]
    and [{track_number:02d}]. A format with another conversion or format
    spec is outside this statement. *)
Theorem get_output_path_clean (self : Downloader.t) (track : Track) :
  (filename_format self = default_filename_format →
     Forall free_of_invalid (path_segments (_get_output_path self track))) ∧
  (Forall clean_field (filename_format self) →
     Forall free_of_invalid (path_segments (_get_output_path self track))).
Proof.
  assert (Forall clean_field (filename_format self) →
          Forall free_of_invalid (path_segments (_get_output_path self track)))
    as Hclean.
  { intros Hfmt.
    assert (∀ s, free_of_invalid (_sanitize_filename s)) as Hsan
      by (intros s c Hc; by apply sanitize_filename_clean).
    assert (free_of_invalid
              (format_filename (filename_format self)
                 (_sanitize_filename (artist track)) (_sanitize_filename (name track))
                 (_sanitize_filename (album track)) (default 1 (track_number track))))
      as Hfile.
    { unfold format_filename.
      induction Hfmt as [|f fmt Hf _ IH]; simpl; [intros c _; reflexivity|].
      intros c Hc. rewrite char_in_app, (IH c Hc), orb_false_r.
      by apply format_field_free. }
    unfold _get_output_path, path_segments, path_div.
    destruct (organize_by_artist self); simpl; repeat constructor; auto. }
  split; [|exact Hclean].
  intros Hdefault. apply Hclean. rewrite Hdefault.
  assert (free_of_invalid " - ") as Hsep.
  { intros c Hc. cbv [invalid_chars String.append] in Hc.
    repeat match type of Hc with
           | Py.char_in _ (String _ _) = true =>
               apply char_in_cons in Hc as [->|Hc]; [vm_compute; reflexivity|]
           end.
    discriminate. }
  repeat constructor; exact Hsep.
Qed.

(** X6. On a file that exists, [_is_file_complete] never raises. When the
    track has no [duration_ms] and the file is identified as audio, or
    reading it fails, the answer is whether the file is larger than 500000
    bytes; so it is when [duration_ms] is 0 and the file has a positive
    length. *)
Theorem is_file_complete_fallback (mutagen : MutagenResult) (fs : FileSystem)
    (file_path : string) (track : Track) (size : Z) :
  fs !! file_path = Some size →
  (∃ b, _is_file_complete mutagen fs file_path track = Returns b) ∧
  (duration_ms track = None → mutagen ≠ MutagenNone →
     _is_file_complete mutagen fs file_path track = Returns (500000 <? size)) ∧
  (∀ length file_duration,
     duration_ms track = Some 0 → mutagen = MutagenAudio length →
     has_positive_length length = Some file_duration →
     _is_file_complete mutagen fs file_path track = Returns (500000 <? size)).
Proof.
  intros Hsize.
  assert (stat_size fs file_path = Returns size) as Hstat
    by (unfold stat_size; by rewrite Hsize).
  split; [|split].
  - unfold _is_file_complete.
    destruct (_is_file_complete_body mutagen fs file_path track); [eauto|].
    rewrite Hstat. simpl. eauto.
  - intros Hms Hmut. unfold _is_file_complete, _is_file_complete_body.
    destruct mutagen as [| |length]; [|done|].
    + by rewrite Hstat.
    + rewrite Hms, Hstat. destruct (has_positive_length length); reflexivity.
  - intros length file_duration Hms -> Hlen.
    unfold _is_file_complete, _is_file_complete_body.
    rewrite Hlen, Hms, Hstat. reflexivity.
Qed.

End DownloaderMore.

(** ** The downloader: [download] *)

Section DownloaderDownload.
Import Downloader.

Variable mutagen : string → MutagenResult.
Variable ydl_download : string → string → string → M FileSystem unit.

Local Abbreviation download := (Downloader.download mutagen ydl_download).
Local Abbreviation fetch := (Downloader.fetch ydl_download).

(** X7. With [skip_existing] set and a file at the output path: if the file
    is judged complete, [download] returns that path and touches neither the
    disk nor yt-dlp; if it is judged incomplete, the file is deleted and the
    call goes on exactly as it would on a disk that never had the file. *)
Theorem download_existing_file (self : Downloader.t) (youtube_url : string)
    (track : Track) (e : Env) (size : Z) :
  let output_path := path_str (_get_output_path self track) in
  skip_existing self = true →
  fs e !! output_path = Some size →
  (_is_file_complete (mutagen output_path) (fs e) output_path track = Returns true →
     download self youtube_url track e = (Returns (Some output_path), e)) ∧
  (_is_file_complete (mutagen output_path) (fs e) output_path track = Returns false →
     download self youtube_url track e
       = download self youtube_url track
           {| fs := delete output_path (fs e); ydl_calls := ydl_calls e |}).
Proof.
  intros output_path Hskip Hsize.
  assert (path_exists (fs e) output_path = true) as Hex
    by (apply path_exists_true; eauto).
  assert (path_exists (delete output_path (fs e)) output_path = false) as Hgone.
  { unfold path_exists. apply bool_decide_eq_false_2.
    rewrite lookup_delete_eq. by intros [? ?]. }
  split; intros Hcomplete.
  - unfold Downloader.download, bind, get. fold output_path.
    rewrite Hskip, Hex. simpl. by rewrite Hcomplete.
  - unfold Downloader.download, bind, get. fold output_path.
    rewrite Hskip, Hex. simpl. rewrite Hcomplete, Hgone.
    unfold on_fs, unlink. by rewrite Hsize.
Qed.

Lemma fetch_result (self : Downloader.t) (youtube_url output_path : string)
    (e e' : Env) (p : string) :
  fetch self youtube_url output_path e = (Returns (Some p), e') →
  is_Some (fs e' !! p) ∧
  with_suffix output_path ("." +:+ _get_codec self) = Returns p ∧
  ydl_calls e' = ydl_calls e ++ [youtube_url].
Proof.
  unfold Downloader.fetch, bind, try_except, on_fs, mkdir, run_ydl, get, ret.
  destruct (path_exists (fs e) (parent_of output_path)); [discriminate|]. simpl.
  destruct (with_suffix output_path ".%(ext)s") as [outtmpl|]; [|discriminate].
  destruct (ydl_download youtube_url outtmpl (_get_codec self) (fs e)) as [[[]|] fs1];
    [|discriminate].
  simpl.
  destruct (with_suffix output_path ("." +:+ _get_codec self)) as [final_path|];
    [|discriminate].
  simpl. destruct (path_exists fs1 final_path) eqn:Hex; [|discriminate].
  intros [= <- <-]. simpl. split; [by apply path_exists_true|]. by split.
Qed.

(** X8. A path that [download] returns is on the disk when it returns. It is
    either the output path itself, found complete, with yt-dlp not called, or
    the output path with the codec as its suffix, after exactly one call of
    yt-dlp. *)
Theorem download_result_exists (self : Downloader.t) (youtube_url : string)
    (track : Track) (e e' : Env) (p : string) :
  let output_path := path_str (_get_output_path self track) in
  download self youtube_url track e = (Returns (Some p), e') →
  is_Some (fs e' !! p) ∧
  ((p = output_path ∧ e' = e) ∨
   (with_suffix output_path ("." +:+ _get_codec self) = Returns p ∧
    ydl_calls e' = ydl_calls e ++ [youtube_url])).
Proof.
  intros output_path. unfold Downloader.download, bind, get. fold output_path.
  destruct (skip_existing self && path_exists (fs e) output_path) eqn:Hskip.
  - apply andb_true_iff in Hskip as [_ Hex].
    destruct (_is_file_complete _ _ _ _) as [[]|]; [| |discriminate].
    + unfold ret. intros [= <- <-]. split; [by apply path_exists_true|]. by left.
    + unfold on_fs, unlink.
      destruct (fs e !! output_path) eqn:Hsize; [|discriminate]. simpl.
      intros Hfetch. apply fetch_result in Hfetch as (Hp & Hsuf & Hcalls).
      split; [exact Hp|]. right. by split.
  - intros Hfetch. apply fetch_result in Hfetch as (Hp & Hsuf & Hcalls).
    split; [exact Hp|]. right. by split.
Qed.

End DownloaderDownload.

(** ** [pathlib]: names and suffixes *)

Section Suffixes.
Import Downloader.

Lemma append_assoc (a b c : string) : (a +:+ b) +:+ c = a +:+ b +:+ c.
Proof.
  induction a as [|x a IH]; [reflexivity|].
  change (String x ((a +:+ b) +:+ c) = String x (a +:+ b +:+ c)). by rewrite IH.
Qed.

Lemma before_last_absent (sep : ascii) (s : string) :
  Py.char_in sep s = false → before_last sep s = None.
Proof.
  induction s as [|c r IH]; simpl; [reflexivity|].
  intros [Hc Hr]%orb_false_iff. rewrite (IH Hr).
  by rewrite Ascii.eqb_sym, Hc.
Qed.

Lemma before_last_app (sep : ascii) (a b : string) :
  Py.char_in sep b = false →
  before_last sep (a +:+ String sep b) = Some a.
Proof.
  intros Hb. induction a as [|c r IH]; simpl.
  - by rewrite before_last_absent, Ascii.eqb_refl.
  - by rewrite IH.
Qed.

Lemma after_last_dot_absent (s : string) :
  Py.char_in "." s = false → DownloadTracker.after_last_dot s = None.
Proof.
  induction s as [|c r IH]; [reflexivity|].
  cbn [DownloadTracker.after_last_dot Py.char_in].
  intros [Hc Hr]%orb_false_iff. rewrite (IH Hr).
  by rewrite Ascii.eqb_sym, Hc.
Qed.

Lemma after_last_dot_app (a b : string) :
  Py.char_in "." b = false →
  DownloadTracker.after_last_dot (a +:+ String "." b) = Some b.
Proof.
  intros Hb. induction a as [|c r IH].
  - change ("" +:+ String "." b) with (String "." b).
    cbn [DownloadTracker.after_last_dot].
    rewrite after_last_dot_absent by done. reflexivity.
  - change (String c r +:+ String "." b) with (String c (r +:+ String "." b)).
    cbn [DownloadTracker.after_last_dot]. by rewrite IH.
Qed.

Lemma name_of_absent (acc s : string) :
  Py.char_in "/" s = false → DownloadTracker.name_of acc s = acc.
Proof.
  revert acc. induction s as [|c r IH]; intros acc; [reflexivity|].
  cbn [DownloadTracker.name_of Py.char_in].
  intros [Hc Hr]%orb_false_iff.
  rewrite Ascii.eqb_sym, Hc. by apply IH.
Qed.

Lemma name_of_app (acc a b : string) :
  Py.char_in "/" b = false →
  DownloadTracker.name_of acc (a +:+ String "/" b) = b.
Proof.
  intros Hb. revert acc. induction a as [|c r IH]; intros acc.
  - change ("" +:+ String "/" b) with (String "/" b).
    cbn [DownloadTracker.name_of]. rewrite ?Ascii.eqb_refl.
    by apply name_of_absent.
  - change (String c r +:+ String "/" b) with (String c (r +:+ String "/" b)).
    cbn [DownloadTracker.name_of]. destruct (Ascii.eqb c "/"); apply IH.
Qed.

Lemma stem_of_app (base ext : string) :
  base ≠ "" → ext ≠ "" → Py.char_in "." ext = false →
  stem_of (base +:+ String "." ext) = base.
Proof.
  intros Hbase Hext Hdot. destruct base as [|c r]; [done|]. simpl.
  rewrite after_last_dot_app, before_last_app by done.
  by destruct ext.
Qed.

(** [with_suffix] replaces what follows the last dot of the name. *)
Lemma with_suffix_name_with_dot (dir base ext codec : string) :
  Py.char_in "/" base = false → base ≠ "" →
  Py.char_in "/" ext = false → Py.char_in "." ext = false → ext ≠ "" →
  Py.char_in "/" codec = false →
  with_suffix (dir +:+ "/" +:+ base +:+ "." +:+ ext) ("." +:+ codec)
    = (if String.eqb codec "" then Raises
       else Returns (dir +:+ "/" +:+ base +:+ "." +:+ codec)).
Proof.
  intros Hbase Hne Hext Hdot Hext_ne Hcodec.
  unfold with_suffix.
  change (Py.char_in "/" ("." +:+ codec)) with (Py.char_in "/" codec).
  rewrite Hcodec.
  change (Py.truthy ("." +:+ codec) && negb (Py.startswith "." ("." +:+ codec)))
    with false.
  change (String.eqb ("." +:+ codec) ".") with (String.eqb codec "").
  simpl orb. destruct (String.eqb codec ""); [reflexivity|].
  assert (Py.char_in "/" (base +:+ "." +:+ ext) = false) as Hname.
  { rewrite char_in_app, Hbase. simpl. exact Hext. }
  change (dir +:+ "/" +:+ base +:+ "." +:+ ext)
    with (dir +:+ String "/" (base +:+ "." +:+ ext)).
  rewrite name_of_app, before_last_app by exact Hname.
  pose proof (stem_of_app base ext Hne Hext_ne Hdot) as Hstem.
  destruct base as [|c r]; [done|].
  change (String c r +:+ "." +:+ ext) with (String c (r +:+ String "." ext)) in *.
  change (String c r +:+ String "." ext) with (String c (r +:+ String "." ext)) in Hstem.
  cbv beta iota. rewrite Hstem. f_equal.
  apply append_assoc.
Qed.

(** X9. When the name of the output path has a dot ([base.ext], as with the
    title "Mr. Brightside"), the path that [download] returns after a run of
    yt-dlp is [base] with the codec as extension: what followed the last dot
    is gone, so output paths that differ only there give the same file. *)
Theorem download_drops_text_after_last_dot
    (mutagen : string → MutagenResult)
    (ydl_download : string → string → string → M FileSystem unit)
    (self : Downloader.t) (youtube_url : string) (track : Track) (e e' : Env)
    (p dir base ext : string) :
  path_str (_get_output_path self track) = dir +:+ "/" +:+ base +:+ "." +:+ ext →
  Py.char_in "/" base = false → base ≠ "" →
  Py.char_in "/" ext = false → Py.char_in "." ext = false → ext ≠ "" →
  Downloader.download mutagen ydl_download self youtube_url track e
    = (Returns (Some p), e') →
  ydl_calls e' ≠ ydl_calls e →
  p = dir +:+ "/" +:+ base +:+ "." +:+ _get_codec self.
Proof.
  intros Hpath Hbase Hne Hext Hdot Hext_ne Hdl Hcalled.
  assert (with_suffix (path_str (_get_output_path self track)) ("." +:+ _get_codec self)
          = Returns p) as Hsuf.
  { revert Hdl. unfold Downloader.download, bind, get.
    destruct (skip_existing self && path_exists (fs e) _).
    - destruct (_is_file_complete _ _ _ _) as [[]|]; [| |discriminate].
      + unfold ret. intros [= _ <-]. done.
      + unfold on_fs, unlink. destruct (fs e !! _); [|discriminate]. simpl.
        intros Hfetch. by apply fetch_result in Hfetch as (_ & Hsuf & _).
    - intros Hfetch. by apply fetch_result in Hfetch as (_ & Hsuf & _). }
  rewrite Hpath in Hsuf.
  pose proof (get_codec_known self) as Hcodec. simpl in Hcodec.
  assert (Py.char_in "/" (_get_codec self) = false ∧ _get_codec self ≠ "") as [Hc1 Hc2].
  { repeat (destruct Hcodec as [<-|Hcodec]; [by split|]). destruct Hcodec. }
  rewrite with_suffix_name_with_dot in Hsuf by done.
  destruct (String.eqb_spec (_get_codec self) ""); [done|].
  by injection Hsuf as <-.
Qed.

End Suffixes.


(** ** The clients: search *)

Section Search.
Import Http.

(** What the selection loop returns was in the list, and nothing in the list
    scores higher. *)
Lemma best_match_loop_sound {C : Type} (score : C → Z) (results : list C)
    (best_score : Z) (best_match : option C) :
  let best := best_match_loop score results best_score best_match in
  (∀ x, x ∈ results → score x ≤ fst best) ∧
  ((best = (best_score, best_match)) ∨
   (∃ c, c ∈ results ∧ snd best = Some c ∧ score c = fst best)).
Proof.
  revert best_score best_match.
  induction results as [|r rest IH]; intros b m; simpl.
  - split; [intros x Hx; inversion Hx|by left].
  - assert (∀ b0 m0, b0 ≤ fst (best_match_loop score rest b0 m0)) as Hmono.
    { clear. induction rest as [|r rest IH]; intros b0 m0; simpl; [lia|].
      destruct (Z.ltb_spec b0 (score r)).
      - specialize (IH (score r) (Some r)). lia.
      - apply IH. }
    destruct (Z.ltb_spec b (score r)) as [Hlt|Hge].
    + destruct (IH (score r) (Some r)) as [Hmax Hres]. split.
      * intros x [->|Hx]%elem_of_cons; [apply Hmono|by apply Hmax].
      * right. destruct Hres as [->|(c & Hc & Hsnd & Hsc)].
        -- exists r. simpl. split; [by left|by split].
        -- exists c. split; [by right|by split].
    + destruct (IH b m) as [Hmax Hres]. split.
      * intros x [->|Hx]%elem_of_cons; [|by apply Hmax].
        specialize (Hmono b m). lia.
      * destruct Hres as [->|(c & Hc & Hsnd & Hsc)]; [by left|].
        right. exists c. split; [by right|by split].
Qed.

Lemma accept_best_sound {C : Type} (score : C → Z) (results : list C) (c : C) :
  accept_best (best_match_loop score results 0 None) = Some c →
  c ∈ results ∧ 60 ≤ score c ∧ ∀ x, x ∈ results → score x ≤ score c.
Proof.
  unfold accept_best.
  destruct (best_match_loop_sound score results 0 None) as [Hmax Hres].
  simpl in *. destruct (Z.leb_spec 60 (fst (best_match_loop score results 0 None)))
    as [H60|]; [|discriminate].
  intros Hsome. destruct Hres as [Heq|(c' & Hc' & Hsnd & Hsc)].
  - rewrite Heq in Hsome. discriminate.
  - rewrite Hsnd in Hsome. injection Hsome as ->.
    rewrite <- Hsc in *. auto.
Qed.

(** X10. Jamendo's [search_track] never raises and leaves the disk alone. It
    uses at most one answer of the network, and a hit it returns came in that
    answer's results, scores at least 60, and is outscored by no other
    result. *)
Theorem jamendo_search_track_sound (track : Track) (e : Env) :
  let '(r, e') := JamendoClient.search_track track e in
  (∃ found, r = Returns found ∧
     ∀ c, found = Some c →
       ∃ resp results,
         replies e = Answer resp :: replies e' ∧ status_ok resp = true ∧
         json resp = Returns (JamendoSearch (Some results)) ∧
         c ∈ results ∧ 60 ≤ JamendoClient.score track c ∧
         ∀ x, x ∈ results → JamendoClient.score track x ≤ JamendoClient.score track c) ∧
  fs e' = fs e ∧
  (replies e' = replies e ∨ ∃ reply, replies e = reply :: replies e').
Proof.
  unfold JamendoClient.search_track, try_except, bind, session_get,
    raise_for_status, lift, ret, raise.
  destruct (replies e) as [|[|resp] rest] eqn:Hrep; simpl.
  - split; [|split; [reflexivity|by left]]. exists None. by split.
  - split; [|split; [reflexivity|right; eauto]]. exists None. by split.
  - destruct (status_ok resp) eqn:Hst; simpl;
      [|split; [|split; [reflexivity|right; eauto]]; exists None; by split].
    destruct (json resp) as [data|] eqn:Hjson; simpl;
      [|split; [|split; [reflexivity|right; eauto]]; exists None; by split].
    destruct (JamendoClient.results_of data) as [|r0 rs] eqn:Hres; simpl;
      (split; [|split; [reflexivity|right; eauto]]);
      [exists None; by split|].
    eexists. split; [reflexivity|]. intros c Hc.
    unfold JamendoClient.if_truthy in Hc.
    destruct (JamendoClient._find_best_match track (r0 :: rs)) as [b|] eqn:Hbest;
      [|discriminate].
    destruct (JamendoClient.truthy_dict b); [|discriminate]. injection Hc as ->.
    apply accept_best_sound in Hbest as (Hin & H60 & Hmax).
    destruct data as [[results|]| | |]; try discriminate.
    simpl in Hres. subst results. exists resp, (r0 :: rs). auto 10.
Qed.

(** X11. The Internet Archive's [search_track] never raises and leaves the
    disk alone. It uses at most one answer of the network, and an item it
    returns came in that answer's documents, scores at least 60, and is
    outscored by no other document. *)
Theorem internetarchive_search_track_sound (track : Track) (e : Env) :
  let '(r, e') := InternetArchiveClient.search_track track e in
  (∃ found, r = Returns found ∧
     ∀ c, found = Some c →
       ∃ resp docs,
         replies e = Answer resp :: replies e' ∧ status_ok resp = true ∧
         json resp = Returns (IASearch (Some docs)) ∧
         c ∈ docs ∧ 60 ≤ InternetArchiveClient.score track c ∧
         ∀ x, x ∈ docs →
              InternetArchiveClient.score track x ≤ InternetArchiveClient.score track c) ∧
  fs e' = fs e ∧
  (replies e' = replies e ∨ ∃ reply, replies e = reply :: replies e').
Proof.
  unfold InternetArchiveClient.search_track, try_except, bind, session_get,
    raise_for_status, lift, ret, raise.
  destruct (replies e) as [|[|resp] rest] eqn:Hrep; simpl.
  - split; [|split; [reflexivity|by left]]. exists None. by split.
  - split; [|split; [reflexivity|right; eauto]]. exists None. by split.
  - destruct (status_ok resp) eqn:Hst; simpl;
      [|split; [|split; [reflexivity|right; eauto]]; exists None; by split].
    destruct (json resp) as [data|] eqn:Hjson; simpl;
      [|split; [|split; [reflexivity|right; eauto]]; exists None; by split].
    destruct (InternetArchiveClient.docs_of data) as [|r0 rs] eqn:Hres; simpl;
      (split; [|split; [reflexivity|right; eauto]]);
      [exists None; by split|].
    eexists. split; [reflexivity|]. intros c Hc.
    unfold InternetArchiveClient.if_truthy in Hc.
    destruct (InternetArchiveClient._find_best_match track (r0 :: rs)) as [b|] eqn:Hbest;
      [|discriminate].
    destruct (InternetArchiveClient.truthy_dict b); [|discriminate]. injection Hc as ->.
    apply accept_best_sound in Hbest as (Hin & H60 & Hmax).
    destruct data as [|[docs|] | |]; try discriminate.
    simpl in Hres. subst docs. exists resp, (r0 :: rs). auto 10.
Qed.

End Search.

(** ** The matchers: what is accepted *)

Section Acceptance.
Import Http.

Lemma str_in_empty (hay : string) : Py.str_in "" hay = true.
Proof. destruct hay; reflexivity. Qed.

(** X12. A Jamendo hit reaches the threshold of 60 exactly when artist and
    title both match in some way, or one of them matches exactly and the
    duration is within the tolerance: an exact artist and a close duration
    are enough, whatever the title. *)
Theorem jamendo_accepts (track : Track) (result : JamendoTrack) :
  let a := JamendoClient.artist_score (Py.lower (artist track))
             (Py.lower (default "" (jt_artist_name result))) in
  let t := JamendoClient.title_score (Py.lower (name track))
             (Py.lower (default "" (jt_name result))) in
  let d := JamendoClient.duration_score track result in
  0 ≤ JamendoClient.score track result ≤ 120 ∧
  (60 ≤ JamendoClient.score track result ↔
     (0 < a ∧ 0 < t) ∨ (d = 20 ∧ (a = 50 ∨ t = 50))).
Proof.
  intros a t d. unfold JamendoClient.score. fold a t d.
  assert (a = 0 ∨ a = 30 ∨ a = 50) as Ha.
  { unfold a, JamendoClient.artist_score. repeat case_match; auto. }
  assert (t = 0 ∨ t = 30 ∨ t = 50) as Ht.
  { unfold t, JamendoClient.title_score. repeat case_match; auto. }
  destruct (jamendo_duration_score_cases track result) as [Hd|Hd]; fold d in Hd; lia.
Qed.

(** X13. A Jamendo hit that has neither artist name nor title (the keys are
    missing, or empty) scores at least 60 against every track, because the
    empty string is a substring of every string; alone in the results, it is
    the match. *)
Theorem jamendo_accepts_nameless_hit (track : Track) (result : JamendoTrack) :
  default "" (jt_artist_name result) = "" →
  default "" (jt_name result) = "" →
  60 ≤ JamendoClient.score track result ∧
  JamendoClient._find_best_match track [result] = Some result.
Proof.
  intros Ha Ht.
  assert (60 ≤ JamendoClient.score track result) as H60.
  { unfold JamendoClient.score, JamendoClient.artist_score, JamendoClient.title_score.
    rewrite Ha, Ht. change (Py.lower "") with "".
    rewrite !str_in_empty, !orb_true_r.
    destruct (jamendo_duration_score_cases track result) as [->| ->];
      repeat case_match; lia. }
  split; [exact H60|].
  apply (select_first_max (JamendoClient.score track) [] [] result H60);
    intros x Hx; inversion Hx.
Qed.

(** X14. An Internet Archive item reaches the threshold exactly when the
    artist and the title both appear, or one of them appears and the item
    lists the Flac format: an item by the artist in FLAC is accepted even if
    its title does not hold the track's title. *)
Theorem internetarchive_accepts (track : Track) (item : IAItem) :
  let artist := Py.lower (artist track) in
  let title := Py.lower (name track) in
  let item_title := Py.lower (default "" (ia_title item)) in
  let item_creator := Py.lower (default "" (ia_creator item)) in
  let has_artist := Py.str_in artist item_creator || Py.str_in artist item_title in
  let has_title := Py.str_in title item_title in
  (60 <=? InternetArchiveClient.score track item)
    = (has_artist && has_title)
      || ((has_artist || has_title) && InternetArchiveClient.has_flac item).
Proof.
  intros artist title item_title item_creator has_artist has_title.
  unfold InternetArchiveClient.score.
  fold artist title item_title item_creator. fold has_artist has_title.
  destruct has_artist, has_title, (InternetArchiveClient.has_flac item); reflexivity.
Qed.

End Acceptance.

(** ** The clients: fetch *)

Section Fetch.
Import Http.

Lemma split_plain (s : string) :
  Py.char_in "/" s = false → Pathlib.split s = [s].
Proof.
  induction s as [|c r IH]; [reflexivity|]. cbn [Py.char_in Pathlib.split].
  intros [Hc Hr]%orb_false_iff. rewrite Ascii.eqb_sym, Hc. by rewrite (IH Hr).
Qed.

Lemma parse_plain (s : string) :
  Py.char_in "/" s = false → Pathlib.is_part s = true →
  Pathlib.parse s = {| Pathlib.root := ""; Pathlib.parts := [s] |}.
Proof.
  intros Hs Hpart. unfold Pathlib.parse.
  assert (Pathlib.splitroot s = ("", s)) as ->.
  { destruct s as [|c r]; [reflexivity|]. cbn [Py.char_in] in Hs.
    apply orb_false_iff in Hs as [Hc _].
    cbn [Pathlib.splitroot]. by rewrite Ascii.eqb_sym, Hc. }
  rewrite split_plain by exact Hs. cbn [List.filter]. by rewrite Hpart.
Qed.

(** A path and its ancestors are directories once [mkdir] has made them. *)
Lemma made_is_dir (p : Pathlib.PurePath) (e : Env) : is_dir (made p e) p = true.
Proof.
  unfold is_dir, made, chain, Pathlib.lineage. simpl.
  destruct p as [root parts]. simpl.
  destruct parts as [|x xs] eqn:Hparts; [reflexivity|]. rewrite <- Hparts.
  apply bool_decide_eq_true_2, elem_of_union_r, elem_of_list_to_set.
  apply list_elem_of_In, in_map_iff.
  exists {| Pathlib.root := root; Pathlib.parts := firstn (length parts) parts |}.
  split; [by rewrite firstn_all|].
  apply in_map_iff. exists (length parts). split; [reflexivity|].
  apply in_seq. subst parts. simpl. lia.
Qed.

(** The file name that both clients build is one component when artist and
    title hold no separator. *)
Lemma file_name_plain (artist title : string) :
  Py.char_in "/" artist = false → Py.char_in "/" title = false →
  let file_name := artist +:+ " - " +:+ title +:+ ".flac" in
  Py.startswith "/" file_name = false ∧
  Pathlib.parse file_name = {| Pathlib.root := ""; Pathlib.parts := [file_name] |}.
Proof.
  intros Ha Ht file_name.
  assert (Py.char_in "/" file_name = false) as Hfree.
  { unfold file_name. by rewrite !char_in_app, Ha, Ht. }
  assert (Pathlib.is_part file_name = true) as Hpart.
  { unfold file_name, Pathlib.is_part.
    destruct artist as [|c [|d r]]; try reflexivity.
    - cbv [String.append Py.truthy String.eqb andb negb].
      by destruct (Ascii.eqb c ".").
    - cbv [String.append Py.truthy String.eqb andb negb].
      by destruct (Ascii.eqb c "."). }
  split; [|by apply parse_plain].
  destruct file_name as [|c r]; [reflexivity|]. cbn [Py.char_in] in Hfree.
  apply orb_false_iff in Hfree as [Hc _].
  cbn [Py.startswith]. by rewrite Hc.
Qed.

(** So, with such a track, the output file can be opened as soon as the
    artist directory is made, unless a directory stands in its place. *)
Lemma plain_names_writable (output_dir : string) (track : Track) (e : Env) :
  let output_path := Pathlib.of_operands [output_dir; artist track] in
  let output_file :=
    Pathlib.of_operands (JamendoClient.output_file_of output_dir track) in
  Py.char_in "/" (artist track) = false →
  Py.char_in "/" (name track) = false →
  Pathlib.parent output_file = output_path ∧
  writable (made output_path e) output_file
    = negb (bool_decide (Pathlib.str output_file ∈ dirs (made output_path e))).
Proof.
  intros output_path output_file Ha Ht.
  destruct (file_name_plain (artist track) (name track) Ha Ht) as [Habs Hparse].
  assert (output_file
          = {| Pathlib.root := Pathlib.root output_path;
               Pathlib.parts := Pathlib.parts output_path
                 ++ [artist track +:+ " - " +:+ name track +:+ ".flac"] |}) as Hfile.
  { unfold output_file, output_path, JamendoClient.output_file_of, path_div,
      Pathlib.of_operands.
    simpl. unfold Pathlib.joinpath at 1. by rewrite Habs, Hparse. }
  assert (Pathlib.parent output_file = output_path) as Hparent.
  { rewrite Hfile. unfold Pathlib.parent. simpl. rewrite removelast_last.
    by destruct output_path. }
  split; [exact Hparent|].
  unfold writable. rewrite Hparent, made_is_dir, andb_true_r.
  f_equal. unfold is_dir. rewrite Hfile. simpl.
  destruct (Pathlib.parts output_path); reflexivity.
Qed.

(** X15. The Internet Archive's [download_track] never raises, and checks
    nothing about what it fetched. When the item has an identifier, its
    metadata lists a FLAC file, the artist directory can be made, the output
    file can be opened in it and the body comes with a readable length, the
    file holds exactly the bytes of the body afterwards, however few, and it
    is returned unless the stream broke off. And when a path is returned, it
    is the output file, two answers of the network were used (the metadata,
    then the body), and the file holds exactly the bytes of the body. *)
Theorem internetarchive_download_unchecked (ia_item : IAItem) (output_dir : string)
    (track : Track) :
  let output_path := Pathlib.of_operands [output_dir; artist track] in
  let output_file :=
    Pathlib.of_operands (InternetArchiveClient.output_file_of output_dir track) in
  (∀ (e : Env) (metadata body : Response) (rest : list Reply) (data : Json)
     (flac_file : IAFile) (n : Z),
      Py.truthy_opt (ia_identifier ia_item) = true →
      replies e = Answer metadata :: Answer body :: rest →
      status_ok metadata = true →
      json metadata = Returns data →
      List.find InternetArchiveClient.is_flac_file (InternetArchiveClient.files_of data)
        = Some flac_file →
      blocked e output_path = false →
      writable (made output_path e) output_file = true →
      status_ok body = true →
      content_length body = Returns n →
      InternetArchiveClient.download_track ia_item output_dir track e
        = (Returns (if stream_fails body then None
                    else Some (Pathlib.str output_file)),
           {| fs := <[Pathlib.str output_file := written (chunks body)]> (fs e);
              dirs := dirs e ∪ list_to_set (chain output_path);
              replies := rest |})) ∧
  (∀ e : Env,
      let '(r, e') := InternetArchiveClient.download_track ia_item output_dir track e in
      ∃ result, r = Returns result ∧
        ∀ p, result = Some p →
          p = Pathlib.str output_file ∧
          ∃ metadata body,
            replies e = Answer metadata :: Answer body :: replies e' ∧
            stream_fails body = false ∧
            fs e' = <[Pathlib.str output_file := written (chunks body)]> (fs e)).
Proof.
  intros output_path output_file. split.
  - intros e metadata body rest data flac_file n Hid Hrep Hst Hjson Hflac
      Hfree Hopen Hst' Hcl.
    cbv [InternetArchiveClient.download_track try_except bind mkdir session_get
         raise_for_status ret raise lift].
    change (path_div [output_dir] (artist track)) with [output_dir; artist track].
    fold output_path output_file.
    rewrite Hid; cbv [negb].
    rewrite Hrep; cbv beta iota.
    rewrite Hst; cbv beta iota.
    rewrite Hjson; cbv beta iota.
    rewrite Hflac; cbv beta iota.
    change (blocked _ output_path) with (blocked e output_path).
    rewrite Hfree; cbv [made fs dirs replies].
    rewrite Hst'; cbv beta iota.
    rewrite Hcl; cbv beta iota.
    rewrite save_stream_result by exact Hopen.
    by destruct (stream_fails body).
  - intros e.
    unfold InternetArchiveClient.download_track, try_except, bind, session_get,
      raise_for_status, lift, mkdir, ret, raise.
    change (path_div [output_dir] (artist track)) with [output_dir; artist track].
    fold output_path output_file.
    destruct (negb (Py.truthy_opt (ia_identifier ia_item)));
      [exists None; by split|].
    destruct (replies e) as [|[|metadata] rest] eqn:Hrep; simpl;
      try (exists None; by split).
    destruct (status_ok metadata); simpl; [|exists None; by split].
    destruct (json metadata) as [data|]; simpl; [|exists None; by split].
    destruct (List.find _ _); [|exists None; by split].
    simpl.
    destruct (blocked _ output_path); simpl; [exists None; by split|].
    destruct rest as [|[|body] rest]; simpl; try (exists None; by split).
    destruct (status_ok body); simpl; [|exists None; by split].
    destruct (content_length body); simpl; [|exists None; by split].
    match goal with
    | |- context [save_stream output_file body ?e1] =>
        destruct (writable e1 output_file) eqn:Hw;
        [rewrite (save_stream_result output_file body e1 Hw)
        |rewrite (save_stream_refused output_file body e1 Hw);
         exists None; by split]
    end.
    simpl.
    destruct (stream_fails body) eqn:Hstream; simpl; [exists None; by split|].
    eexists. split; [reflexivity|]. intros p [= <-]. split; [reflexivity|].
    exists metadata, body. auto.
Qed.

(** X16. Jamendo's [download_track] never raises. With a hit that has no id,
    or where the artist directory or one of its ancestors is a regular file,
    it leaves the world as it is and makes no request. Otherwise it makes the
    artist directory with its missing ancestors, which stay whatever happens
    next, and makes one request; of the regular files it touches the output
    file only: afterwards they are as before, or as before with the output
    file written, or as before without the output file. *)
Theorem jamendo_download_frame (jamendo_track : JamendoTrack) (output_dir : string)
    (track : Track) (e : Env) :
  let output_path := Pathlib.of_operands [output_dir; artist track] in
  let output_file :=
    Pathlib.of_operands (JamendoClient.output_file_of output_dir track) in
  let '(r, e') := JamendoClient.download_track jamendo_track output_dir track e in
  (∃ result, r = Returns result) ∧
  (fs e' = fs e ∨
   (∃ size, fs e' = <[Pathlib.str output_file := size]> (fs e)) ∨
   fs e' = delete (Pathlib.str output_file) (fs e)) ∧
  (if Py.truthy_opt (jt_id jamendo_track) && negb (blocked e output_path)
   then dirs e' = dirs e ∪ list_to_set (chain output_path) ∧
        (replies e = [] ∧ replies e' = [] ∨ ∃ reply, replies e = reply :: replies e')
   else e' = e).
Proof.
  intros output_path output_file.
  unfold JamendoClient.download_track, try_except, bind, session_get,
    raise_for_status, lift, mkdir, stat, stat_size, unlink, ret, raise.
  change (path_div [output_dir] (artist track)) with [output_dir; artist track].
  fold output_path output_file.
  destruct (Py.truthy_opt (jt_id jamendo_track)); simpl; [|by eauto 10].
  destruct (blocked e output_path); simpl; [by eauto 10|].
  destruct (replies e) as [|[|resp] rest] eqn:Hrep; simpl; [by eauto 10..|].
  destruct (status_ok resp); simpl; [|by eauto 10].
  destruct (negb (Py.str_in "audio" (default "" (content_type resp)))); simpl;
    [by eauto 10|].
  destruct (content_length resp); simpl; [|by eauto 10].
  match goal with
  | |- context [save_stream output_file resp ?e1] =>
      destruct (writable e1 output_file) eqn:Hw;
      [rewrite (save_stream_result output_file resp e1 Hw)
      |rewrite (save_stream_refused output_file resp e1 Hw); simpl; by eauto 10]
  end.
  simpl.
  destruct (stream_fails resp); simpl; [by eauto 10|].
  rewrite lookup_insert_eq.
  destruct (written (chunks resp) <? 100000); simpl; [|by eauto 10].
  unfold path_exists. simpl.
  rewrite bool_decide_eq_true_2 by (rewrite lookup_insert_eq; eauto).
  simpl. unfold set_fs. simpl. rewrite delete_insert_eq. eauto 10.
Qed.

End Fetch.

(** ** The orchestrator: retries, reach and set-up *)

Section OrchestratorMore.
Import MultiSourceDownloader.

Context {E : Type}.

Local Abbreviation YS := (Search "youtube").
Local Abbreviation YF := (Fetch "youtube").

Ltac close_with Hdone evs :=
  apply (Hdone _ _ evs);
  [ simpl; rewrite <- ?app_assoc, ?app_nil_r; reflexivity
  | simpl; tauto
  | first [ discriminate
          | intros _; first [ by exists [YS] | by exists [YS; YS]
                            | by exists [YS; YF; YS] ] ] ].

Ltac close_any :=
  match goal with
  | Hdone : ∀ r s' evs, _ |- _ =>
      first [ close_with Hdone (@nil Event) | close_with Hdone [YS; YF]
            | close_with Hdone [YS; YS] | close_with Hdone [YS; YS; YF]
            | close_with Hdone [YS; YF; YS] | close_with Hdone [YS; YF; YS; YF] ]
  end.

(** X17. [_download_from_youtube] never raises and makes at most two rounds.
    The calls it makes are: none (no usable YouTube entry); one search and
    one fetch (the first round gave a file); or a first round without result
    followed by a second search, with or without a fetch. A path is returned
    only when the last call was a fetch. *)
Theorem youtube_retries_are_bounded (self : t E) (track : Track) (s : State E) :
  ∃ r s' evs,
    _download_from_youtube self track s = (Returns r, s') ∧
    trace s' = trace s ++ evs ∧
    In evs [[]; [YS; YF]; [YS; YS]; [YS; YS; YF]; [YS; YF; YS]; [YS; YF; YS; YF]] ∧
    (Py.truthy_opt r = true → ∃ pre, evs = pre ++ [YF]).
Proof.
  unfold _download_from_youtube, attempts, youtube_loop, youtube_attempt,
    try_except, bind, call, ret, raise, max_retries.
  destruct s as [e ls tr].
  assert (∀ (r : option string) (s' : State E) (evs : list Event),
    trace s' = tr ++ evs →
    In evs [[]; [YS; YF]; [YS; YS]; [YS; YS; YF]; [YS; YF; YS]; [YS; YF; YS; YF]] →
    (Py.truthy_opt r = true → ∃ pre, evs = pre ++ [YF]) →
    ∃ r0 s0 evs0, (Returns r, s') = (Returns r0, s0) ∧ trace s0 = tr ++ evs0 ∧
      In evs0 [[]; [YS; YF]; [YS; YS]; [YS; YS; YF]; [YS; YF; YS]; [YS; YF; YS; YF]] ∧
      (Py.truthy_opt r0 = true → ∃ pre, evs0 = pre ++ [YF])) as Hdone
    by (intros r s' evs ? ? ?; exists r, s', evs; auto).
  destruct (sources self !! "youtube") as [[c|d|y]|]; simpl; try close_any.
  destruct (searcher_search y track 0 e) as [[url0|] e1]; simpl.
  - destruct (Py.truthy_opt url0); simpl.
    + destruct (downloader_download y (default "" url0) track e1) as [[out0|] e2]; simpl.
      * destruct (Py.truthy_opt out0) eqn:Hout0; simpl; [close_any|].
        destruct (searcher_search y track 1 e2) as [[url1|] e3]; simpl; [|close_any].
        destruct (Py.truthy_opt url1); simpl; [|close_any].
        destruct (downloader_download y (default "" url1) track e3) as [[out1|] e4];
          simpl; [|close_any].
        destruct (Py.truthy_opt out1) eqn:Hout1; simpl; close_any.
      * destruct (searcher_search y track 1 e2) as [[url1|] e3]; simpl; [|close_any].
        destruct (Py.truthy_opt url1); simpl; [|close_any].
        destruct (downloader_download y (default "" url1) track e3) as [[out1|] e4];
          simpl; [|close_any].
        destruct (Py.truthy_opt out1) eqn:Hout1; simpl; close_any.
    + destruct (searcher_search y track 1 e1) as [[url1|] e3]; simpl; [|close_any].
      destruct (Py.truthy_opt url1); simpl; [|close_any].
      destruct (downloader_download y (default "" url1) track e3) as [[out1|] e4];
        simpl; [|close_any].
      destruct (Py.truthy_opt out1) eqn:Hout1; simpl; close_any.
  - destruct (searcher_search y track 1 e1) as [[url1|] e3]; simpl; [|close_any].
    destruct (Py.truthy_opt url1); simpl; [|close_any].
    destruct (downloader_download y (default "" url1) track e3) as [[out1|] e4];
      simpl; [|close_any].
    destruct (Py.truthy_opt out1) eqn:Hout1; simpl; close_any.
Qed.

Lemma in_order_sources (l : list string) (evs : list Event) :
  in_order l evs → ∀ ev, In ev evs → In (source_of ev) l.
Proof.
  induction 1 as [l|source l evs _ IH|source l ev evs Hsrc _ IH]; intros ev' Hin.
  - destruct Hin.
  - right. by apply IH.
  - destruct Hin as [<-|Hin]; [left; by symmetry|by apply IH].
Qed.

(** X18. [download] calls no source but those that are both in
    [source_priority] and in [self.sources]; and when it returns [None],
    [last_source] still holds what it held before the call. *)
Theorem download_reaches_only_listed_sources (self : t E) (track : Track)
    (s : State E) :
  ∃ r s' evs,
    download self track s = (Returns r, s') ∧
    trace s' = trace s ++ evs ∧
    (∀ ev, In ev evs →
       In (source_of ev) (source_priority self) ∧ active self (source_of ev) = true) ∧
    (r = None → last_source s' = last_source s).
Proof.
  unfold download.
  destruct (download_loop_spec self track (source_priority self) s)
    as (r & s' & evs & Heq & Htr & Hord & Hres).
  exists r, s', evs. split; [exact Heq|]. split; [exact Htr|]. split.
  - intros ev Hev. apply (in_order_sources _ _ Hord) in Hev.
    by apply filter_In in Hev.
  - intros ->. exact Hres.
Qed.

(** X19. After [_initialize_sources], every key of [self.sources] is one of
    the four that [download] dispatches on, and holds an object of the kind
    that its [_download_from_...] method expects. Deezer is there only when
    it is enabled, has a token, and the deemix library is available. *)
Theorem initialize_sources_well_kinded (config : Config) (factory : Factory E)
    (key : string) (obj : SourceObj E) :
  _initialize_sources config factory !! key = Some obj →
  well_kinded key obj ∧
  In key ["internetarchive"; "jamendo"; "deezer"; "youtube"] ∧
  (key = "deezer" →
     cfg_deezer_enabled config = Some true ∧
     Py.truthy_opt (cfg_deezer_arl_token config) = true ∧
     import_deemix factory = Returns true).
Proof.
  unfold _initialize_sources, try_add, obind.
  destruct (default true (cfg_internetarchive_enabled config)),
    (make_internetarchive factory) as [ia|],
    (default true (cfg_jamendo_enabled config)),
    (make_jamendo factory) as [jm|],
    (cfg_deezer_enabled config) as [[]|],
    (Py.truthy_opt (cfg_deezer_arl_token config)),
    (import_deemix factory) as [[]|],
    (make_deemix factory (default "" (cfg_deezer_arl_token config))) as [dz|],
    (make_youtube factory) as [yt|]; simpl;
    rewrite ?lookup_insert_Some, ?lookup_empty;
    intros Hlook;
    repeat match goal with
           | H : _ ∨ _ |- _ => destruct H
           | H : _ ∧ _ |- _ => destruct H
           end;
    try discriminate; subst; simpl;
    (split; [tauto|]); (split; [tauto|]); intros; try done.
Qed.

Lemma paired_app (evs1 evs2 : list Event) :
  paired evs1 → paired evs2 → paired (evs1 ++ evs2).
Proof. induction 1; simpl; auto using paired. Qed.

Ltac shape_with evs :=
  solve
    [ eexists _, _, evs;
      split; [reflexivity|];
      split; [simpl; rewrite <- ?app_assoc, ?app_nil_r; reflexivity|];
      repeat constructor ].

Ltac shape key :=
  first
    [ shape_with (@nil Event) | shape_with [Search key]
    | shape_with [Search key; Fetch key] ].

Lemma client_shapes (self : t E) (key : string) (track : Track) (s : State E) :
  ∃ r s' evs,
    download_from_client self key track s = (Returns r, s') ∧
    trace s' = trace s ++ evs ∧ paired evs.
Proof.
  unfold download_from_client, try_except, bind, call, ret, raise.
  destruct s as [e ls tr].
  destruct (sources self !! key) as [[c|d|y]|]; simpl; try shape key.
  - destruct (search_track c track e) as [[[it|]|] e1]; simpl; try shape key.
    destruct (download_track c it (output_dir self) track e1) as [[r|] e2];
      shape key.
  - destruct (deezer_search_track d track e) as [[[it|]|] e1]; shape key.
Qed.

Lemma deezer_shapes (self : t E) (track : Track) (s : State E) :
  ∃ r s' evs,
    _download_from_deezer self track s = (Returns r, s') ∧
    trace s' = trace s ++ evs ∧ paired evs.
Proof.
  unfold _download_from_deezer, try_except, bind, call, ret, raise.
  destruct s as [e ls tr].
  destruct (sources self !! "deezer") as [[c|d|y]|]; simpl; try shape "deezer".
  - destruct (search_track c track e) as [[[it|]|] e1]; shape "deezer".
  - destruct (deezer_search_track d track e) as [[[it|]|] e1]; simpl;
      try shape "deezer".
    destruct (deezer_download_track d it (output_dir self) e1) as [[r|] e2];
      shape "deezer".
Qed.

Lemma youtube_attempt_paired (self : t E) (track : Track) (attempt : Z)
    (s : State E) :
  ∃ step s' evs,
    youtube_attempt self track attempt s = (Returns step, s') ∧
    trace s' = trace s ++ evs ∧ paired evs.
Proof.
  unfold youtube_attempt, try_except, bind, call, ret, raise.
  destruct s as [e ls tr].
  destruct (sources self !! "youtube") as [[c|d|y]|]; simpl; try shape "youtube".
  destruct (searcher_search y track attempt e) as [[url|] e1]; simpl;
    try shape "youtube".
  destruct (Py.truthy_opt url); simpl.
  - destruct (downloader_download y (default "" url) track e1) as [[out|] e2];
      simpl; try shape "youtube".
    destruct (Py.truthy_opt out); shape "youtube".
  - destruct (attempt <? max_retries - 1); shape "youtube".
Qed.

Lemma youtube_paired (self : t E) (track : Track) (s : State E) :
  ∃ r s' evs,
    _download_from_youtube self track s = (Returns r, s') ∧
    trace s' = trace s ++ evs ∧ paired evs.
Proof.
  unfold _download_from_youtube. generalize attempts as rounds.
  intros rounds. revert s. induction rounds as [|a rest IH]; intros s; simpl.
  - exists None, s, []. unfold ret. rewrite app_nil_r. repeat split. constructor.
  - destruct (youtube_attempt_paired self track a s)
      as (step & s1 & evs1 & Heq & Htr & Hp).
    unfold bind. rewrite Heq. destruct step as [r|].
    + exists r, s1, evs1. auto.
    + destruct (IH s1) as (r & s2 & evs2 & Heq2 & Htr2 & Hp2).
      exists r, s2, (evs1 ++ evs2). rewrite Heq2.
      split; [reflexivity|].
      split; [rewrite Htr2, Htr; by rewrite app_assoc|].
      by apply paired_app.
Qed.

Lemma attempt_paired (self : t E) (source : string) (track : Track) (s : State E) :
  ∃ step s' evs,
    attempt self source track s = (Returns step, s') ∧
    trace s' = trace s ++ evs ∧ paired evs.
Proof.
  assert (∀ m : M (State E) (option string),
    (∃ r s' evs, m s = (Returns r, s') ∧ trace s' = trace s ++ evs ∧ paired evs) →
    ∃ step s' evs,
      (let* result := m in
       if Py.truthy_opt result
       then run modify (set_last_source source) in ret (Return result)
       else ret Continue) s = (Returns step, s') ∧
      trace s' = trace s ++ evs ∧ paired evs) as Hwrap.
  { intros m (r & s1 & evs & Heq & Htr & Hp).
    unfold bind at 1. rewrite Heq.
    destruct (Py.truthy_opt r).
    - exists (Return r), (set_last_source source s1), evs. auto.
    - exists Continue, s1, evs. auto. }
  unfold attempt, dispatch.
  destruct (String.eqb source "internetarchive"); [apply Hwrap, client_shapes|].
  destruct (String.eqb source "jamendo"); [apply Hwrap, client_shapes|].
  destruct (String.eqb source "deezer"); [apply Hwrap, deezer_shapes|].
  destruct (String.eqb source "youtube"); [apply Hwrap, youtube_paired|].
  exists Continue, s, []. unfold ret. rewrite app_nil_r. repeat split. constructor.
Qed.

(** X20. [download] never fetches from a source without having searched it
    just before: in the calls it makes, every fetch comes straight after a
    search of the same source. *)
Theorem download_fetches_after_search (self : t E) (track : Track) (s : State E) :
  ∃ r s' evs,
    download self track s = (Returns r, s') ∧
    trace s' = trace s ++ evs ∧ paired evs.
Proof.
  unfold download. generalize (source_priority self) as priority.
  intros priority. revert s.
  induction priority as [|source rest IH]; intros s; simpl.
  - exists None, s, []. unfold ret. rewrite app_nil_r. repeat split. constructor.
  - destruct (active self source); simpl; [|apply IH].
    unfold bind. rewrite try_attempt.
    destruct (attempt_paired self source track s) as (step & s1 & evs1 & Heq & Htr & Hp).
    rewrite Heq. destruct step as [r|].
    + exists r, s1, evs1. auto.
    + destruct (IH s1) as (r & s2 & evs2 & Heq2 & Htr2 & Hp2).
      exists r, s2, (evs1 ++ evs2). rewrite Heq2.
      split; [reflexivity|].
      split; [rewrite Htr2, Htr; by rewrite app_assoc|].
      by apply paired_app.
Qed.

End OrchestratorMore.

Section SetUp.
Import MultiSourceDownloader.

Context {E : Type}.

(** X21. Built from a configuration that names no [source_priority], the
    orchestrator lists Deezer and YouTube only: [download] then never calls
    the Internet Archive or Jamendo, although both are set up by default. *)
Theorem default_priority_skips_free_sources (config : Config) (factory : Factory E)
    (track : Track) (s : State E) :
  cfg_source_priority config = None →
  ∃ r s' evs,
    download (__init__ config factory) track s = (Returns r, s') ∧
    trace s' = trace s ++ evs ∧
    ∀ ev, In ev evs → source_of ev = "deezer" ∨ source_of ev = "youtube".
Proof.
  intros Hprio. unfold download.
  destruct (download_loop_spec (__init__ config factory) track
              (source_priority (__init__ config factory)) s)
    as (r & s' & evs & Heq & Htr & Hord & _).
  exists r, s', evs. split; [exact Heq|]. split; [exact Htr|].
  intros ev Hev. apply (in_order_sources _ _ Hord) in Hev.
  apply filter_In in Hev as [Hin _]. simpl in Hin. rewrite Hprio in Hin.
  simpl in Hin. destruct Hin as [<-|[<-|[]]]; auto.
Qed.

End SetUp.

(** ** The ledger: marking and removing *)

Section LedgerRoundTrip.
Import DownloadTracker.

(** X22. [mark_downloaded] adds the identity to the ledger and nothing else:
    the keys afterwards are the old ones and the track id, and re-marking an
    identity that is there does not change the number of entries.
    [remove_track] then undoes it: the track is no longer downloaded, and if
    the identity was new the ledger is as it was before the mark. *)
Theorem mark_then_remove (self self' : t) (fs : FileSystem) (track : Track)
    (file_path : string) :
  mark_downloaded self fs track file_path = Returns self' →
  dom (completed_tracks self') = {[_get_track_id track]} ∪ dom (completed_tracks self) ∧
  (is_Some (completed_tracks self !! _get_track_id track) →
     size (completed_tracks self') = size (completed_tracks self)) ∧
  is_downloaded (remove_track self' track) fs track file_path = false ∧
  (completed_tracks self !! _get_track_id track = None →
     completed_tracks (remove_track self' track) = completed_tracks self).
Proof.
  intros Hmark.
  destruct (mark_downloaded_returns _ _ _ _ _ Hmark) as (size & Hfs & Hct).
  assert (completed_tracks (remove_track self' track)
          = delete (_get_track_id track) (completed_tracks self)) as Hrem.
  { unfold remove_track. rewrite Hct.
    rewrite bool_decide_eq_true_2 by (rewrite lookup_insert_eq; eauto).
    simpl. by rewrite delete_insert_eq. }
  split; [rewrite Hct; apply dom_insert_L|].
  split; [intros [info Hinfo]; rewrite Hct; by apply map_size_insert_Some|].
  split.
  - destruct (is_downloaded _ fs track file_path) eqn:Hd; [|reflexivity].
    apply is_downloaded_true in Hd as (info & sz & _ & Hlook & _).
    rewrite Hrem, lookup_delete_eq in Hlook. discriminate.
  - intros Hnew. rewrite Hrem. by apply delete_id.
Qed.

(** X23. The identity of a track is the digest of its artist, name and album
    joined by bars, and of nothing else: two tracks for which that text is
    the same (they differ in track number or duration only, or a bar moves
    between artist and name) share one ledger entry, so marking one makes the
    other count as downloaded. *)
Theorem identity_is_the_joined_text (self self' : t) (fs : FileSystem)
    (marked other : Track) (file_path : string) :
  artist marked +:+ "|" +:+ name marked +:+ "|" +:+ album marked
    = artist other +:+ "|" +:+ name other +:+ "|" +:+ album other →
  mark_downloaded self fs marked file_path = Returns self' →
  _get_track_id other = _get_track_id marked ∧
  is_downloaded self' fs other file_path = true.
Proof.
  intros Htext Hmark.
  assert (_get_track_id other = _get_track_id marked) as Hid
    by (unfold _get_track_id; by rewrite Htext).
  split; [exact Hid|].
  destruct (mark_downloaded_returns _ _ _ _ _ Hmark) as (size & Hfs & Hct).
  apply is_downloaded_true. eexists _, size. split; [exact Hfs|].
  rewrite Hid, Hct, lookup_insert_eq. split; reflexivity.
Qed.

End LedgerRoundTrip.

(** ** The further properties on the sample data *)

Section MoreScenarios.
Import Http MultiSourceDownloader Samples MoreSamples.

Lemma get_output_path_clean_witness :
  Forall Downloader.free_of_invalid
    (path_segments (Downloader._get_output_path default_downloader acdc)).
Proof.
  apply (proj1 (get_output_path_clean default_downloader acdc)).
  reflexivity.
Defined.

Lemma is_file_complete_fallback_witness :
  ∃ b, Downloader._is_file_complete (short_audio song_mp3) disk song_mp3 song = Returns b.
Proof.
  apply (proj1 (is_file_complete_fallback (short_audio song_mp3) disk song_mp3 song
                  5000000 ltac:(vm_compute; reflexivity))).
Defined.

(** A 1000-byte file at the output path, read as 100 s against 200 s: it is
    deleted and the download goes on as on a disk without it. *)
Lemma download_existing_file_witness :
  Downloader.download short_audio ydl_writes default_downloader "https://youtu.be/x"
      song stale_disk
    = Downloader.download short_audio ydl_writes default_downloader "https://youtu.be/x"
        song
        {| Downloader.fs := delete song_path (Downloader.fs stale_disk);
           Downloader.ydl_calls := [] |}.
Proof.
  apply (proj2 (download_existing_file short_audio ydl_writes default_downloader
                  "https://youtu.be/x" song stale_disk 1000
                  ltac:(reflexivity) ltac:(vm_compute; reflexivity))).
  vm_compute. reflexivity.
Defined.

Lemma download_result_exists_witness :
  is_Some (Downloader.fs fetched_disk !! song_mp3).
Proof.
  apply (proj1 (download_result_exists short_audio ydl_writes default_downloader
                  "https://youtu.be/x" song empty_disk fetched_disk
                  song_mp3 ltac:(vm_compute; reflexivity))).
Defined.

(** "Mr. Brightside" as mp3. *)
Lemma download_drops_text_after_last_dot_witness :
  "downloads/The Killers/Hot Fuss/02 - The Killers - Mr.mp3"
    = "downloads/The Killers/Hot Fuss" +:+ "/" +:+ "02 - The Killers - Mr" +:+ "."
        +:+ Downloader._get_codec default_downloader.
Proof.
  apply (download_drops_text_after_last_dot short_audio ydl_brightside
           default_downloader "https://youtu.be/y" brightside empty_disk
           brightside_disk
           "downloads/The Killers/Hot Fuss/02 - The Killers - Mr.mp3"
           "downloads/The Killers/Hot Fuss" "02 - The Killers - Mr" " Brightside");
    first [reflexivity | discriminate | vm_compute; reflexivity].
Defined.

Lemma jamendo_accepts_nameless_hit_witness :
  JamendoClient._find_best_match song [nameless_hit] = Some nameless_hit.
Proof.
  apply (jamendo_accepts_nameless_hit song nameless_hit); reflexivity.
Defined.

Lemma initialize_sources_well_kinded_witness :
  In "youtube" ["internetarchive"; "jamendo"; "deezer"; "youtube"].
Proof.
  destruct (_initialize_sources no_config factory !! "youtube") as [obj|] eqn:Hobj.
  - apply (initialize_sources_well_kinded no_config factory "youtube" obj Hobj).
  - vm_compute in Hobj. discriminate.
Defined.

Lemma default_priority_skips_free_sources_witness :
  ∃ r s' evs,
    download (__init__ no_config factory) song (start world) = (Returns r, s') ∧
    trace s' = trace (start world) ++ evs ∧
    ∀ ev, In ev evs → source_of ev = "deezer" ∨ source_of ev = "youtube".
Proof.
  apply (default_priority_skips_free_sources no_config factory song (start world)).
  reflexivity.
Defined.

(** "AC|DC" by "Live", and "AC" by "DC|Live". *)
Lemma identity_is_the_joined_text_witness :
  DownloadTracker._get_track_id
    {| artist := "AC"; name := "DC|Live"; album := "Album";
       track_number := Some 2; duration_ms := None |}
  = DownloadTracker._get_track_id
      {| artist := "AC|DC"; name := "Live"; album := "Album";
         track_number := Some 1; duration_ms := Some 1000 |}.
Proof.
  apply (proj1 (identity_is_the_joined_text empty_ledger
    (match DownloadTracker.mark_downloaded empty_ledger disk
             {| artist := "AC|DC"; name := "Live"; album := "Album";
                track_number := Some 1; duration_ms := Some 1000 |} song_mp3 with
     | Returns l => l
     | Raises => empty_ledger
     end)
    disk
    {| artist := "AC|DC"; name := "Live"; album := "Album";
       track_number := Some 1; duration_ms := Some 1000 |}
    {| artist := "AC"; name := "DC|Live"; album := "Album";
       track_number := Some 2; duration_ms := None |}
    song_mp3 ltac:(reflexivity) ltac:(reflexivity))).
Defined.

(** The first session marks the song and the write breaks off: the next
    session starts from the empty ledger. *)
Lemma tracker_file_in_step_witness :
  DownloadTracker.completed_tracks
    (DownloadTracker.__init__ "downloads"
       (DownloadTracker.file_after DownloadTracker.NoFile [DownloadTracker.Torn]
          (DownloadTracker.saved
             (fold_left DownloadTracker.after_call
                [DownloadTracker.CallMarkDownloaded disk song song_mp3]
                (DownloadTracker.__init__ "downloads" DownloadTracker.NoFile)))))
    = ∅.
Proof.
  apply (tracker_file_in_step "downloads" DownloadTracker.NoFile
           [DownloadTracker.CallMarkDownloaded disk song song_mp3]
           [DownloadTracker.Torn]).
  vm_compute. reflexivity.
Defined.

(** A body of 5000 bytes from the Internet Archive is kept and returned. *)
Lemma internetarchive_download_unchecked_witness :
  InternetArchiveClient.download_track archive_item "downloads" song archive_world
    = (Returns (Some song_flac),
       {| fs := <[song_flac := 5000]> disk; dirs := folders; replies := [] |}).
Proof.
  rewrite (proj1 (internetarchive_download_unchecked archive_item "downloads" song)
             archive_world metadata_reply (audio_reply 1 5000) []
             (IAMetadata (Some [flac_entry])) flac_entry 5000);
    vm_compute; reflexivity.
Defined.

(** The AC/DC track: the artist directory is made as two levels, the file
    name asks for a third that is not there, and nothing is fetched although
    the body came in full. *)
Example acdc_cannot_be_written :
  Pathlib.str (Pathlib.of_operands (JamendoClient.output_file_of "downloads" acdc))
    = "downloads/AC/DC/AC/DC - Back in Black.flac" ∧
  JamendoClient.download_track hit "downloads" acdc acdc_world
    = (Returns None, {| fs := disk; dirs := acdc_folders; replies := [] |}).
Proof. vm_compute. split; reflexivity. Qed.

(** [pathlib] on operands that are not plain names. *)
Example pathlib_examples :
  map (fun p => Pathlib.str (Pathlib.of_operands p))
      [ ["./downloads"; "Artist"; "Artist - Song.flac"];
        ["downloads/"; ""; " - Song.flac"];
        ["downloads"; "/srv/music"; "/srv/music - Song.flac"];
        ["//host/share"; "a//b/./c"];
        ["."; ".."; "x"];
        [""] ]
  = [ "downloads/Artist/Artist - Song.flac";
      "downloads/ - Song.flac";
      "/srv/music - Song.flac";
      "//host/share/a/b/c";
      "../x";
      "." ].
Proof. vm_compute. reflexivity. Qed.

Lemma mark_then_remove_witness :
  DownloadTracker.completed_tracks (DownloadTracker.remove_track song_ledger song) = ∅.
Proof.
  apply (proj2 (proj2 (proj2
    (mark_then_remove empty_ledger song_ledger disk song song_mp3
       ltac:(vm_compute; reflexivity))))).
  reflexivity.
Defined.

End MoreScenarios.
